(** * Bulk File Renamer: the archive re-keying core

    A shallow embedding of [process_and_rename_zip] (streamlit_app.py) and
    of the Python library calls it is built from, followed by the
    properties of the renamer.

    Conventions of the embedding.
    - A Python [str] is a list of characters; a character is a code point
      below 256, written as an [ascii].  A [bytes] value is a list of
      bytes.
    - [os.path] is [posixpath] (separator [/], no alternative separator).
    - The replacement names are Python strings.
    - A call that may raise returns an [outcome]; the statements of the
      function body run in a small state-and-exception monad whose state
      holds the output archive under construction, the messages handed to
      streamlit and the names of the members opened for reading.
    - [zipfile] follows CPython 3.11: members are looked up by name in the
      [NameToInfo] dictionary, and [writestr] builds a [ZipInfo] from the
      name it is given.  The clock only yields times a ZIP header holds. *)

From Stdlib Require Import Ascii String ZArith.
From Stdlib.Strings Require Import Byte.
From stdpp Require Import base tactics option list numbers strings pretty sorting.

Local Open Scope Z_scope.

(** ** Python strings *)

Abbreviation str := (list ascii).
Abbreviation bytes := (list byte).

(** A literal. *)
Definition py (s : string) : str := list_ascii_of_string s.

Definition ord (c : ascii) : Z := Z.of_N (N_of_ascii c).

Definition between (lo hi : Z) (n : Z) : bool := (lo <=? n) && (n <=? hi).

(** [str.isspace] on one character: TAB..CR, FS..US, SPACE, NEL, NBSP. *)
Definition isspace (c : ascii) : bool :=
  between 9 13 (ord c) || between 28 32 (ord c)
  || (ord c =? 133) || (ord c =? 160).

Fixpoint lstrip (s : str) : str :=
  match s with
  | c :: s' => if isspace c then lstrip s' else s
  | [] => []
  end.

Definition rstrip (s : str) : str := reverse (lstrip (reverse s)).

(** [s.strip()] *)
Definition strip (s : str) : str := rstrip (lstrip s).

(** [s.endswith(c)] for a one-character suffix. *)
Definition endswith (s : str) (c : ascii) : bool :=
  match last s with
  | Some x => bool_decide (x = c)
  | None => false
  end.

(** ** [int(s)]

    Surrounding whitespace, an optional sign, then decimal digits with
    single underscores between them.  [None] stands for [ValueError]. *)

(** The whitespace [int] skips: what C's [isspace] accepts, and NEL and
    NBSP, which the conversion first turns into spaces. *)
Definition int_isspace (c : ascii) : bool :=
  between 9 13 (ord c) || (ord c =? 32) || (ord c =? 133) || (ord c =? 160).

Fixpoint int_lstrip (s : str) : str :=
  match s with
  | c :: s' => if int_isspace c then int_lstrip s' else s
  | [] => []
  end.

Definition int_rstrip (s : str) : str := reverse (int_lstrip (reverse s)).

Definition digit (c : ascii) : option Z :=
  if between 48 57 (ord c) then Some (ord c - 48) else None.

(** Digits and underscores: [acc] is the value read so far, [n] the number
    of digits read, [after_digit] says that the previous character was a
    digit (an underscore is only legal there, and the text must end
    there). *)
Fixpoint int_digits (s : str) (after_digit : bool) (acc : Z) (n : nat)
  : option (Z * nat) :=
  match s with
  | [] => if after_digit then Some (acc, n) else None
  | c :: s' =>
      match digit c with
      | Some d => int_digits s' true (10 * acc + d) (S n)
      | None =>
          if bool_decide (c = "_"%char) && after_digit
          then int_digits s' false acc n
          else None
      end
  end.

(** [sys.get_int_max_str_digits()]: a text with more digits is refused
    with [ValueError]; 0 switches the limit off. *)
Definition int_max_str_digits : nat := 4300.

Definition int (s : str) : option Z :=
  let s := int_rstrip (int_lstrip s) in
  let '(negative, s) :=
    match s with
    | "-"%char :: s' => (true, s')
    | "+"%char :: s' => (false, s')
    | _ => (false, s)
    end in
  match int_digits s false 0 0 with
  | Some (v, n) =>
      if bool_decide (0 < int_max_str_digits)%nat
         && bool_decide (int_max_str_digits < n)%nat
      then None
      else Some (if negative then - v else v)
  | None => None
  end.

(** ** [os.path.splitext] *)

(** [p.rfind(c)]: the highest index of [c] in [p], or -1. *)
Fixpoint rfind_from (c : ascii) (p : str) (i : Z) (found : Z) : Z :=
  match p with
  | [] => found
  | x :: p' => rfind_from c p' (i + 1) (if bool_decide (x = c) then i else found)
  end.

Definition rfind (p : str) (c : ascii) : Z := rfind_from c p 0 (-1).

(** The loop of [genericpath._splitext] that skips the leading dots of the
    last component: it runs [filenameIndex] up to [dotIndex] and answers
    [true] as soon as a character other than [extsep] shows up. *)
Fixpoint has_name_before_dot (p : str) (extsep : ascii)
    (filenameIndex : nat) (steps : nat) : bool :=
  match steps with
  | O => false
  | S steps' =>
      if bool_decide (p !! filenameIndex = Some extsep)
      then has_name_before_dot p extsep (S filenameIndex) steps'
      else true
  end.

Definition _splitext (p : str) (sep : ascii) (altsep : option ascii)
    (extsep : ascii) : str * str :=
  let sepIndex := rfind p sep in
  let sepIndex :=
    match altsep with
    | Some a => Z.max sepIndex (rfind p a)
    | None => sepIndex
    end in
  let dotIndex := rfind p extsep in
  if (sepIndex <? dotIndex)
     && has_name_before_dot p extsep (Z.to_nat (sepIndex + 1))
          (Z.to_nat (dotIndex - (sepIndex + 1)))
  then (take (Z.to_nat dotIndex) p, drop (Z.to_nat dotIndex) p)
  else (p, []).

Definition splitext (p : str) : str * str := _splitext p "/"%char None "."%char.

(** ** The sort of [original_files]

    [get_number] answers an [int] or [float('inf')]; [list.sort] compares
    the keys with [<] only and is stable. *)

Inductive sort_key : Type :=
  | KInt (n : Z)
  | KInf.

Definition key_lt (a b : sort_key) : bool :=
  match a, b with
  | KInt x, KInt y => x <? y
  | KInt _, KInf => true
  | KInf, _ => false
  end.

Definition get_number (filename : str) : sort_key :=
  let '(name, _) := splitext filename in
  match int name with
  | Some n => KInt n
  | None => KInf
  end.

Arguments get_number : simpl never.

Section list_sort.
Context {A : Type} (key : A → sort_key).

(** [x] stood before every element of [l]: it goes in front of the first
    element whose key is not smaller than its own. *)
Fixpoint insert_by_key (x : A) (l : list A) : list A :=
  match l with
  | [] => [x]
  | y :: l' =>
      if key_lt (key y) (key x) then y :: insert_by_key x l' else x :: l
  end.

(** [l.sort(key=key)]: the stable sort, computed here by insertion from
    the right end. *)
Fixpoint list_sort (l : list A) : list A :=
  match l with
  | [] => []
  | x :: l' => insert_by_key x (list_sort l')
  end.
End list_sort.

(** ** Exceptions and the archive *)

Record exn : Type := Exn { exn_class : string; exn_str : str }.

Inductive outcome (A : Type) : Type :=
  | Ok (a : A)
  | Raise (e : exn).
Arguments Ok {A} a.
Arguments Raise {A} e.

(** A member of the uploaded archive as [zipfile] shows it: its name in
    [namelist()] and what [open(...).read()] gives for it, the bytes or the
    exception (bad CRC, encrypted member, unknown compression, ...). *)
Record member : Type := Member { filename : str; payload : outcome bytes }.

(** [zipfile.ZipFile(uploaded_zip, 'r')]: the members, or the exception
    raised for a file that is no archive. *)
Abbreviation upload := (outcome (list member)).

(** [time.localtime(time.time())[:6]] *)
Abbreviation date_time := (Z * Z * Z * Z * Z * Z)%type.

(** A member written to the output archive. *)
Record written : Type :=
  Written { arcname : str; mtime : date_time; data : bytes }.

Inductive st_call : Type :=
  | StError (msg : str)
  | StSuccess (msg : str).

(** What a run touches: the members of [output_zip] so far, the calls made
    to streamlit, and the names handed to [input_zip.open]. *)
Record world : Type :=
  World { output_zip : list written; st_calls : list st_call; opened : list str }.

Definition initial : world := World [] [] [].

Definition M (A : Type) : Type := world → outcome A * world.

#[global] Instance M_ret : MRet M := λ A a w, (Ok a, w).

#[global] Instance M_bind : MBind M := λ A B f m w,
  match m w with
  | (Ok a, w') => f a w'
  | (Raise e, w') => (Raise e, w')
  end.

Definition raise {A : Type} (e : exn) : M A := λ w, (Raise e, w).

Definition st_error (msg : str) : M () := λ w,
  (Ok (), World (output_zip w) (st_calls w ++ [StError msg]) (opened w)).

Definition st_success (msg : str) : M () := λ w,
  (Ok (), World (output_zip w) (st_calls w ++ [StSuccess msg]) (opened w)).

(** [seq[i]] *)
Definition getitem {A : Type} (seq : list A) (i : nat) : M A :=
  match seq !! i with
  | Some x => mret x
  | None => raise (Exn "IndexError" (py "list index out of range"))
  end.

Definition ZipFile (uploaded_zip : upload) : M (list member) := λ w, (uploaded_zip, w).

Definition namelist (input_zip : list member) : list str := filename <$> input_zip.

(** [NameToInfo[name]]: every member read from the central directory
    overwrites the entry of its name, so the last one stays. *)
Definition getinfo (input_zip : list member) (name : str) : option member :=
  last (filter (λ m, filename m = name) input_zip).

(** The text of the [KeyError] of [getinfo]: the [repr] of its message,
    here for a name that needs no escape. *)
Definition no_item_message (name : str) : str :=
  [ascii_of_nat 34] ++ py "There is no item named '" ++ name
  ++ py "' in the archive" ++ [ascii_of_nat 34].

(** The content [input_zip.open(name).read()] gives, apart from the trace. *)
Definition member_data (input_zip : list member) (name : str) : outcome bytes :=
  match getinfo input_zip name with
  | Some m => payload m
  | None => Raise (Exn "KeyError" (no_item_message name))
  end.

Definition open_read (input_zip : list member) (name : str) : M bytes := λ w,
  (member_data input_zip name,
   World (output_zip w) (st_calls w) (opened w ++ [name])).

(** [ZipInfo(filename=...)] ends the name at its first null byte. *)
Fixpoint until_nul (s : str) : str :=
  match s with
  | [] => []
  | c :: s' => if bool_decide (c = zero) then [] else c :: until_nul s'
  end.

(** Bytes of the name in the headers: ASCII when it can be, else UTF-8, in
    which a code point from 128 to 255 takes two bytes. *)
Definition encoded_length (s : str) : Z :=
  Z.of_nat (length s) + Z.of_nat (length (filter (λ c, 128 ≤ ord c) s)).

(** [output_zip.writestr(name, data)]: the [ZipInfo] is built (name cut at
    a null byte, time read from the clock), [zinfo.filename[-1]] is
    inspected for the directory flag, and the header packs the length of
    the name in 16 bits. *)
Definition writestr (clock : nat → date_time) (zinfo_or_arcname : str)
    (data : bytes) : M () := λ w,
  let name := until_nul zinfo_or_arcname in
  match last name with
  | None => (Raise (Exn "IndexError" (py "string index out of range")), w)
  | Some _ =>
      if bool_decide (65535 < encoded_length name)
      then (Raise (Exn "struct.error"
                     (py "ushort format requires 0 <= number <= 65535")), w)
      else (Ok (),
            World (output_zip w ++ [Written name (clock (length (output_zip w))) data])
                  (st_calls w) (opened w))
  end.

(** The archive held by [output_buffer] once [output_zip] is closed. *)
Definition getvalue : M (list written) := λ w, (Ok (output_zip w), w).

(** ** The renamer *)

Definition mismatch_message (n_names n_files : nat) : str :=
  py "Error: The number of new names (" ++ py (pretty n_names) ++ py ") "
  ++ py "does not match the number of files in the zip ("
  ++ py (pretty n_files) ++ py ").".

Definition renamed_message (original_filename new_name_with_ext : str) : str :=
  py "Renamed '" ++ original_filename ++ py "' to '" ++ new_name_with_ext ++ py "'".

Definition failure_message (e : exn) : str :=
  py "An error occurred during file processing: " ++ exn_str e.

Section renamer.
(** The clock: the time read while the member number [k] is written. *)
Variable clock : nat → date_time.

(** [for i, original_filename in enumerate(original_files): ...], from
    index [i] on. *)
Fixpoint rename_loop (input_zip : list member) (new_names_list : list str)
    (i : nat) (original_files : list str) : M () :=
  match original_files with
  | [] => mret ()
  | original_filename :: rest =>
      let '(_, ext) := splitext original_filename in
      name ← getitem new_names_list i;
      let new_name_with_ext := strip name ++ ext in
      content ← open_read input_zip original_filename;
      writestr clock new_name_with_ext content;;
      st_success (renamed_message original_filename new_name_with_ext);;
      rename_loop input_zip new_names_list (S i) rest
  end.

(** The body of the [try]; the answer is what the function returns. *)
Definition try_body (uploaded_zip : upload) (new_names_list : list str)
  : M (option (list written)) :=
  input_zip ← ZipFile uploaded_zip;
  let original_files := namelist input_zip in
  let original_files :=
    filter (λ f, endswith f "/"%char = false) original_files in
  let original_files := list_sort get_number original_files in
  if bool_decide (length original_files ≠ length new_names_list)
  then
    st_error (mismatch_message (length new_names_list) (length original_files));;
    mret None
  else
    rename_loop input_zip new_names_list 0 original_files;;
    output_buffer ← getvalue;
    mret (Some output_buffer).

(** [process_and_rename_zip(uploaded_zip, new_names_list)]: the value
    returned ([None] or the output archive) and the state left behind. *)
Definition process_and_rename_zip (uploaded_zip : upload)
    (new_names_list : list str) : option (list written) * world :=
  match try_body uploaded_zip new_names_list initial with
  | (Ok r, w) => (r, w)
  | (Raise e, w) =>
      match st_error (failure_message e) w with
      | (_, w') => (None, w')
      end
  end.
End renamer.

(** ** Vocabulary of the statements *)

(** The members that are no directory entries, in the order of the
    archive, and the same members in the order of the sort. *)
Definition file_entries (input_zip : list member) : list member :=
  filter (λ m, endswith (filename m) "/"%char = false) input_zip.

Definition sorted_entries (input_zip : list member) : list member :=
  list_sort (λ m, get_number (filename m)) (file_entries input_zip).

(** The value of [original_files] after the sort. *)
Definition original_files (input_zip : list member) : list str :=
  list_sort get_number
    (filter (λ f, endswith f "/"%char = false) (namelist input_zip)).

(** The order of the keys: integers ascending, [inf] after them. *)
Definition key_le (a b : sort_key) : Prop := key_lt b a = false.

#[global] Instance sort_key_eq_dec : EqDecision sort_key.
Proof. solve_decision. Defined.

(** [new_name_with_ext] for a replacement name and a member name. *)
Definition new_name (name original_filename : str) : str :=
  strip name ++ (splitext original_filename).2.

(** The names [writestr] takes: something is left of the name once it is
    cut at a null byte, and that fits the 16-bit length field. *)
Definition accepted (name : str) : bool :=
  bool_decide (until_nul name ≠ [])
  && bool_decide (encoded_length (until_nul name) ≤ 65535).

(** A replacement name of nothing but whitespace, the empty one too. *)
Definition blank (name : str) : bool := forallb isspace name.

(** A member name as a [ZipInfo] of an archive holds it: without a null
    byte, and within the 16-bit length field when written again. *)
Definition archive_name (f : str) : bool :=
  bool_decide (zero ∉ f) && bool_decide (encoded_length f ≤ 65535).

(** The exception [writestr] raises for a name it does not take. *)
Definition writestr_exn (name : str) : exn :=
  match last (until_nul name) with
  | None => Exn "IndexError" (py "string index out of range")
  | Some _ => Exn "struct.error" (py "ushort format requires 0 <= number <= 65535")
  end.

(** The state after the member [original_filename] has been opened, and
    after it has been written under the replacement name [name] with the
    bytes [content]. *)
Definition after_open (original_filename : str) (w : world) : world :=
  World (output_zip w) (st_calls w) (opened w ++ [original_filename]).

Definition after_rename (clock : nat → date_time) (name original_filename : str)
    (content : bytes) (w : world) : world :=
  World
    (output_zip w
     ++ [Written (until_nul (new_name name original_filename))
           (clock (length (output_zip w))) content])
    (st_calls w
     ++ [StSuccess (renamed_message original_filename
                      (new_name name original_filename))])
    (opened w ++ [original_filename]).

(** The content of the member can be read. *)
Definition readable (m : member) : bool :=
  match payload m with
  | Ok _ => true
  | Raise _ => false
  end.

(** A turn of the loop goes through: there is a replacement name at the
    index, the member can be read, and [writestr] takes the new name. *)
Definition step_ok (input_zip : list member) (names : list str)
    (i : nat) (f : str) : Prop :=
  ∃ n d, names !! i = Some n ∧ member_data input_zip f = Ok d
         ∧ accepted (new_name n f) = true.

(** A run without a fault: as many names as files, and every turn of the
    loop goes through. *)
Definition clean (input_zip : list member) (names : list str) : Prop :=
  length names = length (original_files input_zip)
  ∧ ∀ k f, original_files input_zip !! k = Some f → step_ok input_zip names k f.

(** A fault during processing: the upload is no archive; or, the counts
    being equal, the content of a file cannot be read, or the new name of
    a file is one [writestr] does not take. *)
Inductive fault (names : list str) : upload → Prop :=
  | fault_archive e : fault names (Raise e)
  | fault_read input_zip k f e :
      length names = length (original_files input_zip) →
      original_files input_zip !! k = Some f →
      member_data input_zip f = Raise e →
      fault names (Ok input_zip)
  | fault_write input_zip k f n :
      length names = length (original_files input_zip) →
      original_files input_zip !! k = Some f →
      names !! k = Some n →
      accepted (new_name n f) = false →
      fault names (Ok input_zip).

(** Identifier and content of the members of an output archive, without
    their time stamps. *)
Definition contents (out : list written) : list (str * bytes) :=
  (λ o, (arcname o, data o)) <$> out.

(** What a state shows apart from the time stamps. *)
Definition observable (w : world) : list (str * bytes) * list st_call * list str :=
  (contents (output_zip w), st_calls w, opened w).

(** The names handed to [input_zip.open] in a run on an archive that
    opens, in the order of the loop. *)
Definition files_taken (clock : nat → date_time) (input_zip : list member)
    (names : list str) : list str :=
  opened (process_and_rename_zip clock (Ok input_zip) names).2.

(** The last component of a path: what follows its last [/]. *)
Fixpoint last_component (p : str) : str :=
  match p with
  | [] => []
  | _ :: p' => if bool_decide ("/"%char ∈ p) then last_component p' else p
  end.

(** Within one component [b]: the suffix that starts at the last dot,
    when a character other than a dot stands before that dot
    ([named] says that one has been passed already); else nothing. *)
Fixpoint dot_suffix (b : str) (named : bool) : str :=
  match b with
  | [] => []
  | c :: b' =>
      if bool_decide (c = "."%char)
      then if named && bool_decide ("."%char ∉ b') then b else dot_suffix b' named
      else dot_suffix b' true
  end.

(** The extension in words: the part of the last path component from its
    last dot on, unless only dots (or nothing) come before that dot. *)
Definition component_ext (p : str) : str := dot_suffix (last_component p) false.

(** The extension as the specification words it: everything from the last
    dot of the whole identifier on, nothing when it has no dot. *)
Definition ext_from_last_dot (p : str) : str :=
  if bool_decide ("."%char ∈ p) then drop (Z.to_nat (rfind p "."%char)) p else [].

(** ** The callers: the text area and the button *)

Definition newline : ascii := ascii_of_nat 10.

(** [s.split(sep)] for a one-character separator: the pieces between the
    separators, at least one. *)
Fixpoint split (sep : ascii) (s : str) : list str :=
  match s with
  | [] => [[]]
  | c :: s' =>
      if bool_decide (c = sep) then [] :: split sep s'
      else match split sep s' with
           | piece :: pieces => (c :: piece) :: pieces
           | [] => [[c]]
           end
  end.

(** [sep.join(pieces)] *)
Fixpoint join (sep : ascii) (pieces : list str) : str :=
  match pieces with
  | [] => []
  | [piece] => piece
  | piece :: rest => piece ++ sep :: join sep rest
  end.

(** The names of the "Paste names manually" branch: [new_names_list]
    stays empty for an empty text area, else it is
    [[name.strip() for name in new_names_input.split('\n') if name.strip()]]. *)
Definition pasted_names (new_names_input : str) : list str :=
  if bool_decide (new_names_input = []) then []
  else strip <$> filter (λ name, strip name ≠ []) (split newline new_names_input).

(** What the page shows below the button: headers, the messages of
    [st.error] and [st.success], the download button with the archive it
    offers, the warning. *)
Inductive page_call : Type :=
  | Subheader (text : str)
  | St (c : st_call)
  | DownloadButton (data : list written) (file_name : str)
  | Warning (text : str).

(** The body of [if st.button("Start Renaming"):].  [uploaded_zip] is
    [None] while nothing is uploaded; an uploaded file and the buffer
    returned by the renamer are objects without length, hence true. *)
Definition start_renaming (clock : nat → date_time)
    (uploaded_zip : option upload) (new_names_list : list str) : list page_call :=
  match uploaded_zip with
  | Some upload =>
      if bool_decide (new_names_list ≠ [])
      then
        [Subheader (py "Renaming in progress...")]
        ++ match process_and_rename_zip clock upload new_names_list with
           | (renamed_zip, w) =>
               (St <$> st_calls w)
               ++ match renamed_zip with
                  | Some output_buffer =>
                      [Subheader (py "4. Download your renamed files");
                       DownloadButton output_buffer (py "renamed_files.zip");
                       St (StSuccess (py "Your files have been successfully renamed and are ready for download!"))]
                  | None => []
                  end
           end
      else [Warning (py "Please upload a ZIP file and provide a list of new names to start renaming.")]
  | None => [Warning (py "Please upload a ZIP file and provide a list of new names to start renaming.")]
  end.

(** What a turn of the loop does with a file and its replacement name:
    the bytes it writes, or the exception it ends with. *)
Definition turn (input_zip : list member) (name f : str) : outcome bytes :=
  match member_data input_zip f with
  | Raise e => Raise e
  | Ok d =>
      if accepted (new_name name f) then Ok d
      else Raise (writestr_exn (new_name name f))
  end.

Definition went_through (input_zip : list member) (name f : str) : bool :=
  match turn input_zip name f with
  | Ok _ => true
  | Raise _ => false
  end.

(** The message of [st.success] for a file and its replacement name. *)
Definition renamed_call (name f : str) : st_call :=
  StSuccess (renamed_message f (new_name name f)).

(** A decimal digit, and the value of a text of digits read after [acc]. *)
Definition isdigit (c : ascii) : bool := between 48 57 (ord c).

Definition digits_value (ds : str) (acc : Z) : Z :=
  fold_left (λ a c, 10 * a + (ord c - 48)) ds acc.

(** A clock for the examples: one second per member, from noon on. *)
Definition noon (k : nat) : date_time := (2024, 1, 1, 12, 0, Z.of_nat k).

(** * Properties *)

Local Close Scope Z_scope.

(** ** The library calls on sample values *)

Example splitext_samples :
  splitext <$> [py "3.png"; py "report"; py "dir/10.jpg"; py "a.b.c";
                py ".png"; py "a/.b"; py "a.b/c"; py "..."; py "..a.b"; py "a."]
  = [(py "3", py ".png"); (py "report", []); (py "dir/10", py ".jpg");
     (py "a.b", py ".c"); (py ".png", []); (py "a/.b", []); (py "a.b/c", []);
     (py "...", []); (py "..a", py ".b"); (py "a", py ".")].
Proof. by vm_compute. Qed.

Example int_samples :
  int <$> [py "10"; py " 12 "; py "+5"; py "-3"; py "1_0"; py "007";
           py ""; py "image"; py "1.5"; py "1__0"; py "_1"; py "1_"; py "- 3";
           py "0x10"; py "dir/10"]
  = [Some 10%Z; Some 12%Z; Some 5%Z; Some (-3)%Z; Some 10%Z; Some 7%Z;
     None; None; None; None; None; None; None; None; None].
Proof. by vm_compute. Qed.

Example int_digit_limit :
  int (replicate 4301 "1"%char) = None
  ∧ (∃ n, int (replicate 4300 "1"%char) = Some n).
Proof. split; [by vm_compute|]. eexists. by vm_compute. Qed.

Example strip_samples :
  strip <$> [py " photo "; py "final"; py "   "; []; [ascii_of_nat 9; "a"%char; ascii_of_nat 160]]
  = [py "photo"; py "final"; []; []; py "a"].
Proof. by vm_compute. Qed.

Example get_number_samples :
  get_number <$> [py "2.jpg"; py "10.jpg"; py "1.jpg"; py "b.txt"; py "dir/3.png"]
  = [KInt 2; KInt 10; KInt 1; KInf; KInf].
Proof. by vm_compute. Qed.

(** ** The sort *)

Lemma key_lt_irrefl a : key_lt a a = false.
Proof. destruct a; simpl; [apply Z.ltb_irrefl | done]. Qed.

Lemma key_le_trans a b c : key_le a b → key_le b c → key_le a c.
Proof.
  unfold key_le. destruct a, b, c; simpl; try done.
  rewrite !Z.ltb_ge. lia.
Qed.

Lemma key_le_antisym a b : key_le a b → key_le b a → a = b.
Proof.
  unfold key_le. destruct a, b; simpl; try done.
  rewrite !Z.ltb_ge. intros. f_equal. lia.
Qed.

Lemma key_le_total a b : key_lt a b = true → key_le a b.
Proof.
  unfold key_le. destruct a, b; simpl; try done.
  rewrite Z.ltb_lt, Z.ltb_ge. lia.
Qed.

Section list_sort_facts.
Context {A : Type} (key : A → sort_key).

Lemma insert_by_key_perm x l : insert_by_key key x l ≡ₚ x :: l.
Proof.
  induction l as [|y l IH]; simpl; [done|].
  destruct (key_lt (key y) (key x)); [|done].
  rewrite IH. apply Permutation_swap.
Qed.

Lemma list_sort_perm l : list_sort key l ≡ₚ l.
Proof.
  induction l as [|x l IH]; simpl; [done|].
  by rewrite insert_by_key_perm, IH.
Qed.

Lemma length_list_sort l : length (list_sort key l) = length l.
Proof. by rewrite list_sort_perm. Qed.

Lemma insert_by_key_sorted x l :
  StronglySorted (λ a b, key_le (key a) (key b)) l →
  StronglySorted (λ a b, key_le (key a) (key b)) (insert_by_key key x l).
Proof.
  induction 1 as [|y l Hl IH Hy]; simpl.
  - repeat constructor.
  - destruct (key_lt (key y) (key x)) eqn:Hlt.
    + constructor; [done|].
      rewrite insert_by_key_perm. constructor; [|done].
      by apply key_le_total.
    + constructor; [by constructor|].
      constructor; [done|].
      eapply Forall_impl; [exact Hy|].
      intros z Hz. by eapply key_le_trans.
Qed.

Lemma list_sort_sorted l :
  StronglySorted (λ a b, key_le (key a) (key b)) (list_sort key l).
Proof.
  induction l; simpl; [constructor | by apply insert_by_key_sorted].
Qed.

(** Stability: the elements of one key keep their order. *)
Lemma insert_by_key_stable k x l :
  filter (λ a, key a = k) (insert_by_key key x l)
  = filter (λ a, key a = k) (x :: l).
Proof.
  induction l as [|y l IH]; simpl; [done|].
  destruct (key_lt (key y) (key x)) eqn:Hlt; [|done].
  rewrite (filter_cons _ y), IH, !(filter_cons _ x), (filter_cons _ y).
  destruct (decide (key x = k)) as [Hx|Hx], (decide (key y = k)) as [Hy|Hy];
    try done.
  by rewrite Hx, Hy, key_lt_irrefl in Hlt.
Qed.

Lemma list_sort_stable k l :
  filter (λ a, key a = k) (list_sort key l) = filter (λ a, key a = k) l.
Proof.
  induction l as [|x l IH]; simpl; [done|].
  by rewrite insert_by_key_stable, !filter_cons, IH.
Qed.
(** A stable sort has one possible result, whatever the algorithm: a
    list in the order of the keys that keeps, for every key, the elements
    of [l] with that key in their order is [list_sort key l]. *)
Lemma stable_sorted_unique l1 : ∀ l2,
  StronglySorted (λ a b, key_le (key a) (key b)) l1 →
  StronglySorted (λ a b, key_le (key a) (key b)) l2 →
  (∀ k, filter (λ a, key a = k) l1 = filter (λ a, key a = k) l2) →
  l1 = l2.
Proof.
  induction l1 as [|x l1 IH]; intros [|y l2] S1 S2 Hf; [done| | |].
  - specialize (Hf (key y)). by rewrite filter_cons_True in Hf.
  - specialize (Hf (key x)). by rewrite filter_cons_True in Hf.
  - apply StronglySorted_inv in S1 as [S1 Hx], S2 as [S2 Hy].
    rewrite Forall_forall in Hx, Hy.
    assert (key_le (key y) (key x)) as Hyx.
    { assert (x ∈ filter (λ a, key a = key x) (y :: l2)) as Hin.
      { rewrite <- Hf, filter_cons_True by done. apply list_elem_of_here. }
      apply list_elem_of_filter in Hin as [_ [->|Hin]%elem_of_cons].
      - apply key_lt_irrefl.
      - by apply Hy. }
    assert (key_le (key x) (key y)) as Hxy.
    { assert (y ∈ filter (λ a, key a = key y) (x :: l1)) as Hin.
      { rewrite Hf, filter_cons_True by done. apply list_elem_of_here. }
      apply list_elem_of_filter in Hin as [_ [->|Hin]%elem_of_cons].
      - apply key_lt_irrefl.
      - by apply Hx. }
    assert (key y = key x) as Hkey by by apply key_le_antisym.
    pose proof (Hf (key x)) as Hhead.
    rewrite !filter_cons_True in Hhead by done.
    injection Hhead as -> _. f_equal. apply IH; [done..|].
    intros k. specialize (Hf k). rewrite !filter_cons in Hf.
    destruct (decide (key y = k)); [by injection Hf | done].
Qed.

Lemma list_sort_unique l l' :
  StronglySorted (λ a b, key_le (key a) (key b)) l' →
  (∀ k, filter (λ a, key a = k) l' = filter (λ a, key a = k) l) →
  l' = list_sort key l.
Proof.
  intros Hsorted Hstable.
  apply stable_sorted_unique; [done | apply list_sort_sorted |].
  intros k. by rewrite list_sort_stable.
Qed.
End list_sort_facts.

(** Sorting commutes with a map the key goes through. *)
Lemma insert_by_key_fmap {A B : Type} (f : A → B) (key : B → sort_key) x l :
  f <$> insert_by_key (λ a, key (f a)) x l = insert_by_key key (f x) (f <$> l).
Proof.
  induction l as [|y l IH]; [done|].
  rewrite fmap_cons. cbn [insert_by_key].
  destruct (key_lt (key (f y)) (key (f x))); [|done].
  by rewrite fmap_cons, IH.
Qed.

Lemma list_sort_fmap {A B : Type} (f : A → B) (key : B → sort_key) (l : list A) :
  f <$> list_sort (λ a, key (f a)) l = list_sort key (f <$> l).
Proof.
  induction l as [|x l IH]; [done|].
  rewrite fmap_cons. cbn [list_sort].
  by rewrite insert_by_key_fmap, IH.
Qed.

Lemma filter_fmap_comm {A B : Type} (f : A → B) (P : B → Prop)
    `{!∀ b, Decision (P b)} (l : list A) :
  filter P (f <$> l) = f <$> filter (λ a, P (f a)) l.
Proof.
  induction l as [|x l IH]; [done|].
  rewrite fmap_cons, !filter_cons.
  destruct (decide (P (f x))); by rewrite ?fmap_cons, IH.
Qed.

Lemma original_files_entries input_zip :
  original_files input_zip = filename <$> sorted_entries input_zip.
Proof.
  unfold original_files, sorted_entries, file_entries, namelist.
  by rewrite (list_sort_fmap filename get_number), filter_fmap_comm.
Qed.

(** ** One turn of the loop *)

Lemma writestr_accepted clock name content w :
  accepted name = true →
  writestr clock name content w
  = (Ok (),
     World (output_zip w
            ++ [Written (until_nul name) (clock (length (output_zip w))) content])
       (st_calls w) (opened w)).
Proof.
  unfold accepted, writestr. intros [Hne Hlen]%andb_prop.
  apply bool_decide_eq_true in Hne, Hlen.
  destruct (last (until_nul name)) eqn:Hlast.
  - rewrite bool_decide_eq_false_2; [done | lia].
  - by apply last_None in Hlast.
Qed.

Lemma writestr_refused clock name content w :
  accepted name = false →
  writestr clock name content w = (Raise (writestr_exn name), w).
Proof.
  unfold accepted, writestr, writestr_exn. intros Hacc.
  destruct (last (until_nul name)) eqn:Hlast; [|done].
  rewrite bool_decide_eq_true_2 in Hacc.
  - simpl in Hacc. apply bool_decide_eq_false in Hacc.
    rewrite bool_decide_eq_true_2; [done | lia].
  - intros Hnil. by rewrite Hnil in Hlast.
Qed.

Lemma rename_loop_nil clock input_zip names i w :
  rename_loop clock input_zip names i [] w = (Ok (), w).
Proof. done. Qed.

Lemma rename_loop_cons clock input_zip names i f rest w :
  rename_loop clock input_zip names i (f :: rest) w
  = match names !! i with
    | None => (Raise (Exn "IndexError" (py "list index out of range")), w)
    | Some n =>
        match member_data input_zip f with
        | Raise e => (Raise e, after_open f w)
        | Ok d =>
            if accepted (new_name n f)
            then rename_loop clock input_zip names (S i) rest
                   (after_rename clock n f d w)
            else (Raise (writestr_exn (new_name n f)), after_open f w)
        end
    end.
Proof.
  cbn [rename_loop]. unfold after_rename, new_name.
  destruct (splitext f) as [root ext]. cbn [snd].
  unfold mbind, M_bind, getitem.
  destruct (names !! i) as [n|]; [|done].
  unfold mret, M_ret, open_read.
  destruct (member_data input_zip f) as [d|e]; [|done].
  destruct (accepted (strip n ++ ext)) eqn:Hacc.
  - by rewrite writestr_accepted.
  - by rewrite writestr_refused.
Qed.

(** ** The whole loop *)

Section loop_facts.
Variable clock : nat → date_time.
Variable input_zip : list member.
Variable names : list str.

(** When every turn goes through, the loop ends normally, having opened
    the files in order and appended one member per file. *)
Lemma rename_loop_ok files : ∀ i w,
  (∀ k f, files !! k = Some f → step_ok input_zip names (i + k) f) →
  ∃ outs w',
    rename_loop clock input_zip names i files w = (Ok (), w')
    ∧ output_zip w' = output_zip w ++ outs
    ∧ opened w' = opened w ++ files
    ∧ length outs = length files
    ∧ ∀ k f, files !! k = Some f →
        ∃ n d, names !! (i + k) = Some n ∧ member_data input_zip f = Ok d
               ∧ outs !! k
                 = Some (Written (until_nul (new_name n f))
                           (clock (length (output_zip w) + k)) d).
Proof.
  induction files as [|f rest IH]; intros i w Hok.
  - exists [], w. rewrite rename_loop_nil, !app_nil_r. by repeat split.
  - destruct (Hok 0 f eq_refl) as (n & d & Hn & Hd & Hacc).
    rewrite Nat.add_0_r in Hn.
    destruct (IH (S i) (after_rename clock n f d w)) as (outs & w' & Hrun & Hout & Hop & Hlen & Hall).
    { intros k g Hg. specialize (Hok (S k) g Hg).
      by replace (S i + k) with (i + S k) by lia. }
    exists (Written (until_nul (new_name n f)) (clock (length (output_zip w))) d :: outs), w'.
    rewrite rename_loop_cons, Hn, Hd, Hacc, Hrun, Hout, Hop. simpl.
    rewrite <- !app_assoc. repeat split; [by rewrite Hlen|].
    intros [|k] g Hg; simpl in Hg.
    + injection Hg as <-. exists n, d. by rewrite !Nat.add_0_r.
    + destruct (Hall k g Hg) as (n' & d' & Hn' & Hd' & Hk).
      exists n', d'. simpl in Hk. rewrite length_app in Hk. simpl in Hk.
      replace (i + S k) with (S i + k) by lia.
      by replace (length (output_zip w) + S k)
        with (length (output_zip w) + 1 + k) by lia.
Qed.

(** Conversely, a loop that ends normally went through every turn. *)
Lemma rename_loop_ok_inv files : ∀ i w w',
  rename_loop clock input_zip names i files w = (Ok (), w') →
  ∀ k f, files !! k = Some f → step_ok input_zip names (i + k) f.
Proof.
  induction files as [|f rest IH]; intros i w w' Hrun k g Hg; [done|].
  rewrite rename_loop_cons in Hrun.
  destruct (names !! i) as [n|] eqn:Hn; [|done].
  destruct (member_data input_zip f) as [d|e] eqn:Hd; [|done].
  destruct (accepted (new_name n f)) eqn:Hacc; [|done].
  destruct k as [|k]; simpl in Hg.
  - injection Hg as <-. rewrite Nat.add_0_r. by exists n, d.
  - replace (i + S k) with (S i + k) by lia. by eapply IH.
Qed.

(** A loop that raises met a file whose content cannot be read or whose
    new name is refused, or ran out of names. *)
Lemma rename_loop_raise_inv files : ∀ i w e w',
  rename_loop clock input_zip names i files w = (Raise e, w') →
  ∃ k f, files !! k = Some f
         ∧ (names !! (i + k) = None
            ∨ (∃ e', member_data input_zip f = Raise e')
            ∨ (∃ n, names !! (i + k) = Some n ∧ accepted (new_name n f) = false)).
Proof.
  induction files as [|f rest IH]; intros i w e w' Hrun; [done|].
  rewrite rename_loop_cons in Hrun.
  destruct (names !! i) as [n|] eqn:Hn.
  2:{ exists 0, f. rewrite Nat.add_0_r. by split; [|left]. }
  destruct (member_data input_zip f) as [d|e'] eqn:Hd.
  2:{ exists 0, f. split; [done|]. right. left. by exists e'. }
  destruct (accepted (new_name n f)) eqn:Hacc.
  2:{ exists 0, f. rewrite Nat.add_0_r. split; [done|]. right. right. by exists n. }
  apply IH in Hrun as (k & g & Hg & Hwhy).
  exists (S k), g. by replace (i + S k) with (S i + k) by lia.
Qed.

(** Whatever happens, the members opened are a prefix of the files. *)
Lemma rename_loop_opened files : ∀ i w r w',
  rename_loop clock input_zip names i files w = (r, w') →
  ∃ n, opened w' = opened w ++ take n files.
Proof.
  induction files as [|f rest IH]; intros i w r w' Hrun.
  - injection Hrun as <- <-. exists 0. by rewrite app_nil_r.
  - rewrite rename_loop_cons in Hrun.
    destruct (names !! i) as [n|].
    2:{ injection Hrun as <- <-. exists 0. by rewrite app_nil_r. }
    destruct (member_data input_zip f) as [d|e].
    2:{ injection Hrun as <- <-. by exists 1. }
    destruct (accepted (new_name n f)).
    2:{ injection Hrun as <- <-. by exists 1. }
    apply IH in Hrun as [m Hm].
    exists (S m). rewrite Hm. simpl. by rewrite <- app_assoc.
Qed.
End loop_facts.

(** ** The function as a whole *)

(** An upload that is no archive: the exception of [ZipFile] is reported
    and nothing is returned. *)
Lemma process_unreadable clock e names :
  process_and_rename_zip clock (Raise e) names
  = (None, World [] [StError (failure_message e)] []).
Proof. done. Qed.

(** An archive that opens: the length check, then the loop. *)
Lemma process_readable clock input_zip names :
  process_and_rename_zip clock (Ok input_zip) names
  = if bool_decide (length (original_files input_zip) ≠ length names)
    then (None,
          World [] [StError (mismatch_message (length names)
                               (length (original_files input_zip)))] [])
    else match rename_loop clock input_zip names 0
                 (original_files input_zip) initial with
         | (Ok _, w) => (Some (output_zip w), w)
         | (Raise e, w) =>
             (None,
              World (output_zip w) (st_calls w ++ [StError (failure_message e)])
                (opened w))
         end.
Proof.
  unfold process_and_rename_zip, try_body, ZipFile, mbind, M_bind.
  fold (original_files input_zip).
  case_bool_decide; [done|].
  destruct (rename_loop clock input_zip names 0 (original_files input_zip) initial)
    as [[[]|e] w]; done.
Qed.

Lemma length_original_files input_zip :
  length (original_files input_zip) = length (file_entries input_zip).
Proof.
  rewrite original_files_entries, length_fmap. unfold sorted_entries.
  apply length_list_sort.
Qed.

(** A clean run returns the archive the loop assembled: one member per
    file, in the order of [original_files], each under its new name, with
    the bytes read for the file. *)
Lemma process_clean clock input_zip names :
  clean input_zip names →
  ∃ out w,
    process_and_rename_zip clock (Ok input_zip) names = (Some out, w)
    ∧ output_zip w = out
    ∧ opened w = original_files input_zip
    ∧ length out = length (original_files input_zip)
    ∧ ∀ k f, original_files input_zip !! k = Some f →
        ∃ n d, names !! k = Some n ∧ member_data input_zip f = Ok d
               ∧ out !! k = Some (Written (until_nul (new_name n f)) (clock k) d).
Proof.
  intros [Hlen Hok].
  destruct (rename_loop_ok clock input_zip names (original_files input_zip) 0 initial)
    as (outs & w' & Hrun & Hout & Hop & Hl & Hall); [done|].
  exists outs, w'. rewrite process_readable, bool_decide_eq_false_2 by (by intros []).
  rewrite Hrun. simpl in Hout, Hop. rewrite Hout. by repeat split.
Qed.

(** Conversely, an archive is returned by clean runs only. *)
Lemma process_returns clock uploaded_zip names out :
  (process_and_rename_zip clock uploaded_zip names).1 = Some out →
  ∃ input_zip, uploaded_zip = Ok input_zip ∧ clean input_zip names.
Proof.
  destruct uploaded_zip as [input_zip|e]; [|done].
  rewrite process_readable. intros Hret. exists input_zip. split; [done|].
  case_bool_decide as Hlen; [done|].
  destruct (rename_loop clock input_zip names 0 (original_files input_zip) initial)
    as [[[]|e] w] eqn:Hrun; [|done].
  split; [by destruct (decide (length names = length (original_files input_zip))); [|destruct Hlen] |].
  intros k f Hf.
  by apply (rename_loop_ok_inv clock input_zip names _ 0 initial w Hrun k f).
Qed.

(** ** The order in which the files are taken *)

Lemma get_number_int f :
  get_number f
  = match int (splitext f).1 with Some n => KInt n | None => KInf end.
Proof. unfold get_number. by destruct (splitext f). Qed.

Lemma StronglySorted_at {A : Type} (R : relation A) (l : list A) :
  StronglySorted R l →
  ∀ i j a b, l !! i = Some a → l !! j = Some b → i < j → R a b.
Proof.
  induction 1 as [|x l Hl IH Hx]; intros i j a b Hi Hj Hij; [done|].
  destruct j as [|j]; [lia|]. simpl in Hj.
  destruct i as [|i]; simpl in Hi.
  - injection Hi as <-. rewrite Forall_forall in Hx.
    apply Hx. by eapply list_elem_of_lookup_2.
  - apply (IH i j); [done..|lia].
Qed.

(** The value of [original_files] after the sort of line 39. *)
Lemma original_files_ascending (input_zip : list member) :
  original_files input_zip
    ≡ₚ filter (λ f, endswith f "/"%char = false) (namelist input_zip)
  ∧ (∀ i j a b x y,
       original_files input_zip !! i = Some a →
       original_files input_zip !! j = Some b →
       i < j →
       int (splitext a).1 = Some x → int (splitext b).1 = Some y →
       (x ≤ y)%Z)
  ∧ (∀ i j a b y,
       original_files input_zip !! i = Some a →
       original_files input_zip !! j = Some b →
       int (splitext a).1 = None → int (splitext b).1 = Some y →
       j < i)
  ∧ (∀ f2 f10 f1,
       int (splitext f2).1 = Some 2%Z →
       int (splitext f10).1 = Some 10%Z →
       int (splitext f1).1 = Some 1%Z →
       list_sort get_number [f2; f10; f1] = [f1; f2; f10])
  ∧ (∀ p2 p10 p1,
       original_files
         [Member (py "2.jpg") p2; Member (py "10.jpg") p10; Member (py "1.jpg") p1]
       = [py "1.jpg"; py "2.jpg"; py "10.jpg"]).
Proof.
  pose proof (StronglySorted_at _ _
    (list_sort_sorted get_number
       (filter (λ f, endswith f "/"%char = false) (namelist input_zip))))
    as Hsorted.
  fold (original_files input_zip) in Hsorted.
  split; [apply list_sort_perm|].
  split; [|split; [|split]].
  - intros i j a b x y Hi Hj Hij Ha Hb.
    specialize (Hsorted i j a b Hi Hj Hij). cbv beta in Hsorted.
    rewrite !get_number_int, Ha, Hb in Hsorted.
    unfold key_le in Hsorted. simpl in Hsorted.
    by apply Z.ltb_ge in Hsorted.
  - intros i j a b y Hi Hj Ha Hb.
    destruct (decide (j < i)) as [|Hge]; [done|].
    assert (i ≠ j) as Hne.
    { intros ->. rewrite Hi in Hj. injection Hj as ->. by rewrite Ha in Hb. }
    assert (i < j) as Hij by lia.
    specialize (Hsorted i j a b Hi Hj Hij). cbv beta in Hsorted.
    rewrite !get_number_int, Ha, Hb in Hsorted. done.
  - intros f2 f10 f1 H2 H10 H1.
    pose proof (get_number_int f2) as K2. rewrite H2 in K2.
    pose proof (get_number_int f10) as K10. rewrite H10 in K10.
    pose proof (get_number_int f1) as K1. rewrite H1 in K1.
    cbn [list_sort insert_by_key]. rewrite K1, K10. cbn.
    by rewrite K1, K2, K10.
  - done.
Qed.

(** The loop takes the files from the front of the sorted list, and all
    of them when the function returns an archive. *)
Lemma files_taken_prefix clock input_zip names :
  ∃ n, files_taken clock input_zip names = take n (original_files input_zip).
Proof.
  unfold files_taken. rewrite process_readable.
  case_bool_decide as Hlen; [by exists 0|].
  destruct (rename_loop clock input_zip names 0 (original_files input_zip) initial)
    as [[[]|e] w] eqn:Hrun;
    destruct (rename_loop_opened clock input_zip names _ _ _ _ _ Hrun) as [n Hn];
    by exists n.
Qed.

Lemma files_taken_returned clock input_zip names out :
  (process_and_rename_zip clock (Ok input_zip) names).1 = Some out →
  files_taken clock input_zip names = original_files input_zip
  ∧ ∀ k f, original_files input_zip !! k = Some f →
      ∃ n d, names !! k = Some n
             ∧ out !! k = Some (Written (until_nul (new_name n f)) (clock k) d).
Proof.
  intros Hret. unfold files_taken.
  destruct (process_returns _ _ _ _ Hret) as (z & [= <-] & Hclean).
  destruct (process_clean clock _ _ Hclean) as (out' & w & Hrun & _ & Hop & _ & Hall).
  rewrite Hrun in Hret |- *. simpl in Hret. injection Hret as ->.
  split; [done|]. intros k f Hf.
  destruct (Hall k f Hf) as (n & d & Hn & _ & Ho). by exists n, d.
Qed.

(** C2.  The renamer takes the files in the order of the integer read
    from each base name (the name without its extension).  In every run
    on an archive that opens, of two files the loop opens, the one opened
    first has the smaller or equal integer, and a file whose base name is
    no integer is opened after every file whose base name is one; the
    files opened are the first ones of [original_files], the sorted list.
    When the function returns an archive, every non-directory name of the
    input was opened, each as often as the input has it, and the member
    number [k] of the output is named by the name number [k] and the
    extension of the file number [k] in that order.  The sorted list
    itself is ascending in the same sense for every archive.  Three files
    with the base names 2, 10 and 1 are taken in the order 1, 2, 10: the
    names a, b, c on the archive 2.jpg, 10.jpg, 1.jpg give a.jpg with the
    bytes of 1.jpg, b.jpg with those of 2.jpg and c.jpg with those of
    10.jpg. *)
Theorem files_sorted_by_number (clock : nat → date_time)
    (input_zip : list member) (names : list str) :
  (∀ i j a b x y,
     files_taken clock input_zip names !! i = Some a →
     files_taken clock input_zip names !! j = Some b →
     i < j →
     int (splitext a).1 = Some x → int (splitext b).1 = Some y →
     (x ≤ y)%Z)
  ∧ (∀ i j a b y,
       files_taken clock input_zip names !! i = Some a →
       files_taken clock input_zip names !! j = Some b →
       int (splitext a).1 = None → int (splitext b).1 = Some y →
       j < i)
  ∧ (∃ n, files_taken clock input_zip names = take n (original_files input_zip))
  ∧ (∀ out,
       (process_and_rename_zip clock (Ok input_zip) names).1 = Some out →
       files_taken clock input_zip names
         ≡ₚ filter (λ f, endswith f "/"%char = false) (namelist input_zip)
       ∧ files_taken clock input_zip names = original_files input_zip
       ∧ ∀ k f, files_taken clock input_zip names !! k = Some f →
           ∃ n o, names !! k = Some n ∧ out !! k = Some o
                  ∧ arcname o = until_nul (new_name n f))
  ∧ original_files input_zip
      ≡ₚ filter (λ f, endswith f "/"%char = false) (namelist input_zip)
  ∧ (∀ i j a b x y,
       original_files input_zip !! i = Some a →
       original_files input_zip !! j = Some b →
       i < j →
       int (splitext a).1 = Some x → int (splitext b).1 = Some y →
       (x ≤ y)%Z)
  ∧ (∀ i j a b y,
       original_files input_zip !! i = Some a →
       original_files input_zip !! j = Some b →
       int (splitext a).1 = None → int (splitext b).1 = Some y →
       j < i)
  ∧ (∀ f2 f10 f1,
       int (splitext f2).1 = Some 2%Z →
       int (splitext f10).1 = Some 10%Z →
       int (splitext f1).1 = Some 1%Z →
       list_sort get_number [f2; f10; f1] = [f1; f2; f10])
  ∧ (∀ d2 d10 d1,
       process_and_rename_zip clock
         (Ok [Member (py "2.jpg") (Ok d2); Member (py "10.jpg") (Ok d10);
              Member (py "1.jpg") (Ok d1)])
         [py "a"; py "b"; py "c"]
       = (Some [Written (py "a.jpg") (clock 0) d1;
                Written (py "b.jpg") (clock 1) d2;
                Written (py "c.jpg") (clock 2) d10],
          World [Written (py "a.jpg") (clock 0) d1;
                 Written (py "b.jpg") (clock 1) d2;
                 Written (py "c.jpg") (clock 2) d10]
            [StSuccess (py "Renamed '1.jpg' to 'a.jpg'");
             StSuccess (py "Renamed '2.jpg' to 'b.jpg'");
             StSuccess (py "Renamed '10.jpg' to 'c.jpg'")]
            [py "1.jpg"; py "2.jpg"; py "10.jpg"])).
Proof.
  destruct (original_files_ascending input_zip)
    as (Hperm & Hasc & Hinf & Hthree & _).
  destruct (files_taken_prefix clock input_zip names) as [n Hn].
  split; [|split; [|split; [|split; [|split; [exact Hperm|]]]]].
  5: split; [exact Hasc|split; [exact Hinf|split; [exact Hthree|]]].
  - intros i j a b x y Hi Hj. rewrite Hn in Hi, Hj.
    apply lookup_take_Some in Hi as [Hi _]. apply lookup_take_Some in Hj as [Hj _].
    by apply Hasc.
  - intros i j a b y Hi Hj. rewrite Hn in Hi, Hj.
    apply lookup_take_Some in Hi as [Hi _]. apply lookup_take_Some in Hj as [Hj _].
    by apply Hinf.
  - by exists n.
  - intros out Hret.
    destruct (files_taken_returned clock input_zip names out Hret) as [Hall Hout].
    rewrite Hall. split; [done|]. split; [done|].
    intros k f Hf. destruct (Hout k f Hf) as (m & d & Hm & Ho).
    by eexists m, _.
  - intros d2 d10 d1. by vm_compute.
Qed.

(** C5.  The sort is stable.  For every key, be it a given integer or
    [inf] (a base name that is no integer), the files of that key stand in
    [original_files] in the order they have in the archive, and so do the
    members themselves in [sorted_entries]; two files of equal key stay
    as they are, as the files named b and a do. *)
Theorem sort_keeps_ties_in_order (input_zip : list member) (k : sort_key) :
  filter (λ f, get_number f = k) (original_files input_zip)
  = filter (λ f, get_number f = k)
      (filter (λ f, endswith f "/"%char = false) (namelist input_zip))
  ∧ filter (λ m, get_number (filename m) = k) (sorted_entries input_zip)
    = filter (λ m, get_number (filename m) = k) (file_entries input_zip)
  ∧ (∀ b a, get_number b = get_number a → list_sort get_number [b; a] = [b; a])
  ∧ (∀ pb pa,
       get_number (py "b") = KInf ∧ get_number (py "a") = KInf
       ∧ sorted_entries [Member (py "b") pb; Member (py "a") pa]
         = [Member (py "b") pb; Member (py "a") pa]).
Proof.
  split; [apply list_sort_stable|].
  split; [apply (list_sort_stable (λ m, get_number (filename m)))|].
  split; [|done].
  intros b a Hkey. simpl. by rewrite Hkey, key_lt_irrefl.
Qed.

(** ** The length check *)

(** C3.  When the number of names differs from the number of
    non-directory entries, the function returns nothing, its one message
    is the error that carries both counts, no member has been opened and
    nothing has been written to the output archive. *)
Theorem count_mismatch (clock : nat → date_time) (input_zip : list member)
    (names : list str) :
  length names ≠ length (file_entries input_zip) →
  process_and_rename_zip clock (Ok input_zip) names
  = (None,
     World []
       [StError
          (py "Error: The number of new names (" ++ py (pretty (length names))
           ++ py ") does not match the number of files in the zip ("
           ++ py (pretty (length (file_entries input_zip))) ++ py ").")]
       []).
Proof.
  intros Hlen. rewrite process_readable, length_original_files.
  rewrite bool_decide_eq_true_2 by done.
  unfold mismatch_message. reflexivity.
Qed.

(** Two names for the one file of an archive that also holds a
    directory entry. *)
Lemma count_mismatch_witness :
  length [py "one"; py "two"]
  ≠ length (file_entries [Member (py "7.png") (Ok []); Member (py "img/") (Ok [])])
  ∧ process_and_rename_zip noon
      (Ok [Member (py "7.png") (Ok []); Member (py "img/") (Ok [])])
      [py "one"; py "two"]
    = (None,
       World []
         [StError
            (py "Error: The number of new names (2) does not match the number of files in the zip (1).")]
         []).
Proof.
  split; [by vm_compute|].
  apply (count_mismatch noon
           [Member (py "7.png") (Ok []); Member (py "img/") (Ok [])]
           [py "one"; py "two"]).
  by vm_compute.
Defined.

(** ** Directory entries *)

Lemma original_files_not_directories input_zip f :
  f ∈ original_files input_zip → endswith f "/"%char = false.
Proof.
  unfold original_files. rewrite list_sort_perm, list_elem_of_filter.
  by intros [? _].
Qed.

Lemma getinfo_file_entries input_zip f :
  endswith f "/"%char = false →
  getinfo (file_entries input_zip) f = getinfo input_zip f.
Proof.
  intros Hf. unfold getinfo, file_entries. f_equal.
  apply list_filter_filter_l. by intros m ->.
Qed.

Lemma original_files_file_entries input_zip :
  original_files (file_entries input_zip) = original_files input_zip.
Proof.
  unfold original_files, file_entries, namelist. f_equal.
  rewrite !filter_fmap_comm. f_equal.
  by apply list_filter_filter_r.
Qed.

(** The loop reads the archive through [member_data] alone. *)
Lemma rename_loop_ext clock zip1 zip2 names files : ∀ i w,
  (∀ f, f ∈ files → member_data zip1 f = member_data zip2 f) →
  rename_loop clock zip1 names i files w = rename_loop clock zip2 names i files w.
Proof.
  induction files as [|f rest IH]; intros i w Hsame; [done|].
  rewrite !rename_loop_cons, (Hsame f) by apply list_elem_of_here.
  destruct (names !! i) as [n|]; [|done].
  destruct (member_data zip2 f) as [d|e]; [|done].
  destruct (accepted (new_name n f)); [|done].
  apply IH. intros g Hg. apply Hsame. by apply list_elem_of_further.
Qed.

(** C6.  Directory entries take no part.  The run on an archive is, in
    what it returns, reports, opens and writes, the run on the archive
    without its entries whose name ends with [/]: they are not counted in
    the length check, not renamed and not copied, whatever the number of
    names; and no name that is opened ends with [/]. *)
Theorem directory_entries_excluded (clock : nat → date_time)
    (input_zip : list member) (names : list str) :
  process_and_rename_zip clock (Ok input_zip) names
  = process_and_rename_zip clock (Ok (file_entries input_zip)) names
  ∧ Forall (λ f, endswith f "/"%char = false)
      (opened (process_and_rename_zip clock (Ok input_zip) names).2)
  ∧ (∀ p, process_and_rename_zip clock
            (Ok [Member (py "images/") p; Member (py "4.png") (Ok [x2a])])
            [py "cover"]
          = (Some [Written (py "cover.png") (clock 0) [x2a]],
             World [Written (py "cover.png") (clock 0) [x2a]]
               [StSuccess (py "Renamed '4.png' to 'cover.png'")]
               [py "4.png"])).
Proof.
  split; [|split; [|done]].
  - rewrite !process_readable, original_files_file_entries.
    rewrite (rename_loop_ext clock (file_entries input_zip) input_zip); [done|].
    intros f Hf. unfold member_data.
    by rewrite getinfo_file_entries by by eapply original_files_not_directories.
  - rewrite process_readable. case_bool_decide; [by constructor|].
    destruct (rename_loop clock input_zip names 0 (original_files input_zip) initial)
      as [r w] eqn:Hrun.
    apply rename_loop_opened in Hrun as [n Hn]. simpl in Hn.
    assert (Forall (λ f, endswith f "/"%char = false) (opened w)) as Hw.
    { rewrite Hn. apply Forall_take, Forall_forall.
      apply original_files_not_directories. }
    by destruct r as [[]|e].
Qed.

(** ** Determinism *)

(** The clock is the one input of a run besides the archive and the
    names; it only reaches the time stamps of the members written. *)
Lemma rename_loop_clock clock1 clock2 input_zip names files : ∀ i w1 w2,
  observable w1 = observable w2 →
  (rename_loop clock1 input_zip names i files w1).1
  = (rename_loop clock2 input_zip names i files w2).1
  ∧ observable (rename_loop clock1 input_zip names i files w1).2
    = observable (rename_loop clock2 input_zip names i files w2).2.
Proof.
  induction files as [|f rest IH]; intros i w1 w2 Hobs; [done|].
  rewrite !rename_loop_cons.
  assert (observable (after_open f w1) = observable (after_open f w2)) as Hopen.
  { unfold observable in *. simpl. by injection Hobs as -> -> ->. }
  destruct (names !! i) as [n|]; [|done].
  destruct (member_data input_zip f) as [d|e]; [|done].
  destruct (accepted (new_name n f)); [|done].
  apply IH. unfold observable, contents in *. simpl.
  rewrite !fmap_app. simpl. by injection Hobs as -> -> ->.
Qed.

(** C8.  Two runs on the same archive and names, at whatever times, agree
    on what they return up to the time stamps: both return nothing, or
    both return archives with the same identifiers and the same bytes, in
    the same order.  They also report the same messages and open the same
    members, so a failing run fails the same way again. *)
Theorem rename_deterministic (clock1 clock2 : nat → date_time)
    (uploaded_zip : upload) (names : list str) :
  contents <$> (process_and_rename_zip clock1 uploaded_zip names).1
  = contents <$> (process_and_rename_zip clock2 uploaded_zip names).1
  ∧ st_calls (process_and_rename_zip clock1 uploaded_zip names).2
    = st_calls (process_and_rename_zip clock2 uploaded_zip names).2
  ∧ opened (process_and_rename_zip clock1 uploaded_zip names).2
    = opened (process_and_rename_zip clock2 uploaded_zip names).2.
Proof.
  destruct uploaded_zip as [input_zip|e]; [|done].
  rewrite !process_readable. case_bool_decide; [done|].
  destruct (rename_loop_clock clock1 clock2 input_zip names
              (original_files input_zip) 0 initial initial eq_refl) as [Hr Hw].
  destruct (rename_loop clock1 input_zip names 0 (original_files input_zip) initial)
    as [r1 w1].
  destruct (rename_loop clock2 input_zip names 0 (original_files input_zip) initial)
    as [r2 w2].
  simpl in Hr, Hw. subst r2. unfold observable in Hw.
  injection Hw as Hout Hcalls Hopened.
  destruct r1 as [[]|e]; simpl; by rewrite ?Hout, ?Hcalls, ?Hopened.
Qed.

(** ** Faults *)

Lemma fault_not_clean names input_zip :
  fault names (Ok input_zip) → ¬ clean input_zip names.
Proof.
  intros Hfault [_ Hok].
  inversion Hfault as [|? k f e _ Hf Hread|? k f n _ Hf Hn Hacc]; subst.
  - destruct (Hok k f Hf) as (n & d & _ & Hd & _). by rewrite Hread in Hd.
  - destruct (Hok k f Hf) as (n' & d & Hn' & _ & Hacc').
    rewrite Hn in Hn'. injection Hn' as <-. by rewrite Hacc in Hacc'.
Qed.

(** C7.  A fault leaves nothing to the caller.  If the upload cannot be
    read as an archive, or the content of a file cannot be read, or a new
    name cannot be written, the function returns nothing and its last
    message is the error that carries the text of the exception.  What is
    returned otherwise is whole: an archive is returned by runs without a
    fault only, it is the output archive as closed, and it holds one
    member for every file.  Nothing is returned only after such a fault
    or when the counts differ.  A member whose content fails its check
    makes the run return nothing, although the members before it had
    been written. *)
Theorem fault_returns_nothing (clock : nat → date_time)
    (uploaded_zip : upload) (names : list str) :
  (fault names uploaded_zip →
   (process_and_rename_zip clock uploaded_zip names).1 = None
   ∧ ∃ e, last (st_calls (process_and_rename_zip clock uploaded_zip names).2)
          = Some (StError (failure_message e)))
  ∧ (∀ out,
       (process_and_rename_zip clock uploaded_zip names).1 = Some out →
       ∃ input_zip,
         uploaded_zip = Ok input_zip
         ∧ ¬ fault names uploaded_zip
         ∧ output_zip (process_and_rename_zip clock uploaded_zip names).2 = out
         ∧ length out = length (file_entries input_zip)
         ∧ ∀ k f, original_files input_zip !! k = Some f →
             ∃ n d, names !! k = Some n ∧ member_data input_zip f = Ok d
                    ∧ out !! k
                      = Some (Written (until_nul (new_name n f)) (clock k) d))
  ∧ ((process_and_rename_zip clock uploaded_zip names).1 = None →
     fault names uploaded_zip
     ∨ ∃ input_zip, uploaded_zip = Ok input_zip
                    ∧ length names ≠ length (file_entries input_zip))
  ∧ process_and_rename_zip clock
      (Ok [Member (py "1.txt") (Ok [x41]);
           Member (py "2.txt") (Raise (Exn "BadZipFile" (py "Bad CRC-32 for file '2.txt'")))])
      [py "a"; py "b"]
    = (None,
       World [Written (py "a.txt") (clock 0) [x41]]
         [StSuccess (py "Renamed '1.txt' to 'a.txt'");
          StError (py "An error occurred during file processing: Bad CRC-32 for file '2.txt'")]
         [py "1.txt"; py "2.txt"]).
Proof.
  split; [|split; [|split; [|done]]].
  - intros Hfault.
    destruct uploaded_zip as [input_zip|e].
    2:{ rewrite process_unreadable. split; [done|]. by exists e. }
    pose proof (fault_not_clean _ _ Hfault) as Hnot.
    assert (length names = length (original_files input_zip)) as Hlen
      by (by inversion Hfault).
    rewrite process_readable, bool_decide_eq_false_2 by (by intros []).
    destruct (rename_loop clock input_zip names 0 (original_files input_zip) initial)
      as [[[]|e] w] eqn:Hrun.
    + destruct Hnot. split; [done|]. intros k f Hf.
      by apply (rename_loop_ok_inv clock input_zip names _ 0 initial w Hrun k f).
    + split; [done|]. exists e. simpl. apply last_snoc.
  - intros out Hret.
    destruct (process_returns _ _ _ _ Hret) as (input_zip & -> & Hclean).
    exists input_zip. split; [done|].
    split; [by intros ?%fault_not_clean|].
    destruct (process_clean clock _ _ Hclean) as (out' & w & Hrun & Hout & _ & Hlen & Hall).
    rewrite Hrun in Hret |- *. simpl in Hret. injection Hret as ->.
    by rewrite <- length_original_files.
  - destruct uploaded_zip as [input_zip|e]; [|intros _; left; constructor].
    rewrite process_readable.
    case_bool_decide as Hlen.
    { intros _. right. exists input_zip. split; [done|].
      rewrite <- length_original_files. congruence. }
    assert (length names = length (original_files input_zip)) as Hlen'
      by (destruct (decide (length names = length (original_files input_zip)));
          [done | by destruct Hlen]).
    destruct (rename_loop clock input_zip names 0 (original_files input_zip) initial)
      as [[[]|e] w] eqn:Hrun; [done|].
    intros _. left.
    apply rename_loop_raise_inv in Hrun as (k & f & Hf & [Hn|[[e' He']|[n [Hn Hacc]]]]).
    + apply lookup_lt_Some in Hf. apply lookup_ge_None in Hn. simpl in Hn. lia.
    + by eapply fault_read.
    + by eapply fault_write.
Qed.

(** ** Reading a member by its name *)

Lemma getinfo_Some input_zip name m :
  getinfo input_zip name = Some m → m ∈ input_zip ∧ filename m = name.
Proof.
  unfold getinfo. intros Hlast%last_Some_elem_of.
  apply list_elem_of_filter in Hlast. tauto.
Qed.

Lemma getinfo_elem_of input_zip m :
  m ∈ input_zip → is_Some (getinfo input_zip (filename m)).
Proof.
  intros Hm. unfold getinfo.
  destruct (last (filter (λ m', filename m' = filename m) input_zip)) eqn:Hlast;
    [done|].
  apply last_None in Hlast.
  assert (m ∈ filter (λ m', filename m' = filename m) input_zip) as Hin
    by by apply list_elem_of_filter.
  rewrite Hlast in Hin. by apply not_elem_of_nil in Hin.
Qed.

Lemma NoDup_fmap_eq {A B : Type} (f : A → B) (l : list A) x y :
  NoDup (f <$> l) → x ∈ l → y ∈ l → f x = f y → x = y.
Proof.
  induction l as [|z l IH]; intros Hnd Hx Hy Hxy; [by apply not_elem_of_nil in Hx|].
  rewrite fmap_cons in Hnd. apply NoDup_cons in Hnd as [Hz Hnd].
  apply elem_of_cons in Hx as [->|Hx], Hy as [->|Hy]; [done| | |by apply IH].
  - destruct Hz. rewrite Hxy. by apply list_elem_of_fmap_2.
  - destruct Hz. rewrite <- Hxy. by apply list_elem_of_fmap_2.
Qed.

Lemma sorted_entries_elem_of input_zip m :
  m ∈ sorted_entries input_zip ↔ m ∈ file_entries input_zip.
Proof. unfold sorted_entries. by rewrite list_sort_perm. Qed.

(** The member found under the name of a file entry is a file entry of
    that name; it is the entry itself when no other has its name. *)
Lemma getinfo_file_entry input_zip m :
  m ∈ file_entries input_zip →
  ∃ m', getinfo input_zip (filename m) = Some m'
        ∧ m' ∈ file_entries input_zip ∧ filename m' = filename m
        ∧ (NoDup (filename <$> file_entries input_zip) → m' = m).
Proof.
  intros Hm. pose proof Hm as [Hfile Hin]%list_elem_of_filter.
  destruct (getinfo_elem_of _ _ Hin) as [m' Hm'].
  destruct (getinfo_Some _ _ _ Hm') as [Hin' Hname].
  assert (m' ∈ file_entries input_zip) as Hm'file.
  { apply list_elem_of_filter. by rewrite Hname. }
  exists m'. repeat split; try done.
  intros Hnd. by apply (NoDup_fmap_eq filename (file_entries input_zip)).
Qed.

(** The hypotheses of a run without a fault, on the inputs themselves. *)
Lemma clean_intro input_zip names :
  length names = length (file_entries input_zip) →
  Forall (λ m, readable m = true) (file_entries input_zip) →
  Forall2 (λ n f, accepted (new_name n f) = true) names (original_files input_zip) →
  clean input_zip names.
Proof.
  intros Hlen Hread Hacc. split; [by rewrite length_original_files|].
  intros k f Hf.
  destruct (Forall2_lookup_r _ _ _ _ _ Hacc Hf) as (n & Hn & Hnf).
  assert (f ∈ filename <$> sorted_entries input_zip) as Hin.
  { rewrite <- original_files_entries. by eapply list_elem_of_lookup_2. }
  apply list_elem_of_fmap in Hin as (m & -> & Hm%sorted_entries_elem_of).
  destruct (getinfo_file_entry _ _ Hm) as (m' & Hget & Hm' & _ & _).
  rewrite Forall_forall in Hread. specialize (Hread m' Hm').
  unfold readable in Hread. destruct (payload m') as [d|] eqn:Hd; [|done].
  exists n, d. unfold member_data. by rewrite Hget.
Qed.

(** ** Count, order and content of the output *)

(** For the examples: the lists of files are computed, then each element
    is checked by running the definitions. *)
Ltac by_running :=
  repeat match goal with
  | |- context [original_files ?z] =>
      let l := eval vm_compute in (original_files z) in
      change (original_files z) with l
  | |- context [file_entries ?z] =>
      let l := eval vm_compute in (file_entries z) in
      change (file_entries z) with l
  end;
  repeat first
    [ apply List.Forall2_nil | apply List.Forall2_cons; [by vm_compute|]
    | apply List.Forall_nil | apply List.Forall_cons; [by vm_compute|] ].

(** An archive may hold two members of one name; [zipfile] then reads the
    last of them under that name, both times.  With the members 1.txt
    (one byte, 41) and 1.txt (one byte, 42) and the names a and b, the
    counts agree and the first sorted entry holds 41, yet the first
    member of the output holds 42.  And equal counts do not make the run
    succeed: the one member README with the one name of a single space
    gives the empty identifier, which [writestr] does not take. *)
Lemma duplicate_identifier_counterexample :
  length [py "a"; py "b"]
  = length (file_entries [Member (py "1.txt") (Ok [x41]); Member (py "1.txt") (Ok [x42])])
  ∧ sorted_entries [Member (py "1.txt") (Ok [x41]); Member (py "1.txt") (Ok [x42])]
    = [Member (py "1.txt") (Ok [x41]); Member (py "1.txt") (Ok [x42])]
  ∧ (process_and_rename_zip noon
       (Ok [Member (py "1.txt") (Ok [x41]); Member (py "1.txt") (Ok [x42])])
       [py "a"; py "b"]).1
    = Some [Written (py "a.txt") (noon 0) [x42]; Written (py "b.txt") (noon 1) [x42]]
  ∧ Ok [x41] ≠ Ok [x42]
  ∧ length [py " "] = length (file_entries [Member (py "README") (Ok [x41])])
  ∧ (process_and_rename_zip noon (Ok [Member (py "README") (Ok [x41])]) [py " "]).1
    = None.
Proof. repeat split; by vm_compute. Qed.

(** C1, amended.  Take an archive that opens and whose non-directory
    entries can all be read, and as many names as it has such entries,
    each giving a new identifier that [writestr] takes.  Then the function
    returns an archive of exactly that many members, in the order of the
    sorted entries; the content of its member [i] is what the archive
    gives under the name of the sorted entry [i], and that is the content
    of the sorted entry [i] itself when no two non-directory entries share
    a name. *)
Theorem rename_keeps_contents (clock : nat → date_time)
    (input_zip : list member) (names : list str) :
  length names = length (file_entries input_zip) →
  Forall (λ m, readable m = true) (file_entries input_zip) →
  Forall2 (λ n f, accepted (new_name n f) = true) names (original_files input_zip) →
  ∃ out,
    (process_and_rename_zip clock (Ok input_zip) names).1 = Some out
    ∧ length out = length (file_entries input_zip)
    ∧ ∀ i m, sorted_entries input_zip !! i = Some m →
        ∃ o, out !! i = Some o
             ∧ member_data input_zip (filename m) = Ok (data o)
             ∧ (NoDup (filename <$> file_entries input_zip) →
                payload m = Ok (data o)).
Proof.
  intros Hlen Hread Hacc.
  destruct (process_clean clock input_zip names (clean_intro _ _ Hlen Hread Hacc))
    as (out & w & Hrun & _ & _ & Hout & Hall).
  exists out. rewrite Hrun. split; [done|].
  split; [by rewrite Hout, length_original_files|].
  intros i m Hm.
  assert (original_files input_zip !! i = Some (filename m)) as Hf
    by by rewrite original_files_entries, list_lookup_fmap, Hm.
  destruct (Hall i _ Hf) as (n & d & _ & Hd & Ho).
  eexists. split; [exact Ho|]. simpl. split; [done|].
  intros Hnd.
  assert (m ∈ file_entries input_zip) as Hin.
  { apply sorted_entries_elem_of. by eapply list_elem_of_lookup_2. }
  destruct (getinfo_file_entry _ _ Hin) as (m' & Hget & _ & _ & Hsame).
  unfold member_data in Hd. rewrite Hget, (Hsame Hnd) in Hd. done.
Qed.

(** The archive 10.png, pics/, 2.png with the names second and tenth:
    2.png is taken first. *)
Lemma rename_keeps_contents_witness :
  ∃ out,
    (process_and_rename_zip noon
       (Ok [Member (py "10.png") (Ok [x0a]); Member (py "pics/") (Ok []);
            Member (py "2.png") (Ok [x02])])
       [py "second"; py "tenth"]).1 = Some out
    ∧ contents out = [(py "second.png", [x02]); (py "tenth.png", [x0a])].
Proof.
  destruct (rename_keeps_contents noon
              [Member (py "10.png") (Ok [x0a]); Member (py "pics/") (Ok []);
               Member (py "2.png") (Ok [x02])]
              [py "second"; py "tenth"]) as (out & Hret & _).
  - by vm_compute.
  - by_running.
  - by_running.
  - exists out. split; [exact Hret|].
    vm_compute in Hret. by injection Hret as <-.
Defined.




(** ** The extension [splitext] gives *)

Lemma rfind_from_spec c p : ∀ i found,
  ((c ∉ p) ∧ rfind_from c p i found = found)
  ∨ (∃ l r, p = l ++ c :: r ∧ (c ∉ r)
            ∧ rfind_from c p i found = (i + Z.of_nat (length l))%Z).
Proof.
  induction p as [|x p IH]; intros i found; simpl.
  - left. split; [apply not_elem_of_nil | done].
  - destruct (IH (i + 1)%Z (if bool_decide (x = c) then i else found))
      as [[Hnot ->]|(l & r & -> & Hr & ->)].
    + case_bool_decide as Hx.
      * right. exists [], p. subst x. simpl. repeat split; [done|]. lia.
      * left. split; [|done]. apply not_elem_of_cons. by split; [congruence|].
    + right. exists (x :: l), r. simpl. repeat split; [done|]. lia.
Qed.

Lemma rfind_spec p c :
  ((c ∉ p) ∧ rfind p c = (-1)%Z)
  ∨ (∃ l r, p = l ++ c :: r ∧ (c ∉ r) ∧ rfind p c = Z.of_nat (length l)).
Proof.
  unfold rfind.
  destruct (rfind_from_spec c p 0%Z (-1)%Z) as [?|(l & r & ? & ? & ->)];
    [by left | right; by exists l, r].
Qed.

(** The path splits after its last separator. *)
Lemma split_at_sep p :
  ∃ pre r, p = pre ++ r ∧ ("/"%char ∉ r)
           ∧ (rfind p "/"%char + 1)%Z = Z.of_nat (length pre)
           ∧ last_component p = r.
Proof.
  assert (∀ r, ("/"%char) ∉ r → last_component r = r) as Hfree.
  { intros [|x r] Hr; [done|]. simpl. by rewrite bool_decide_eq_false_2. }
  destruct (rfind_spec p "/"%char) as [[Hnot ->]|(l & r & -> & Hr & ->)].
  - exists [], p. repeat split; [done|by apply Hfree].
  - exists (l ++ ["/"%char]), r. rewrite <- app_assoc, length_app. simpl.
    repeat split; [done|lia|].
    induction l as [|x l IH]; cbn [app last_component].
    + rewrite bool_decide_eq_true_2 by apply list_elem_of_here. by apply Hfree.
    + rewrite bool_decide_eq_true_2; [done|].
      apply list_elem_of_further, elem_of_app. right. apply list_elem_of_here.
Qed.

Lemma has_name_before_dot_spec c s : ∀ pre t,
  has_name_before_dot (pre ++ s ++ t) c (length pre) (length s)
  = bool_decide (¬ Forall (λ x, x = c) s).
Proof.
  induction s as [|x s IH]; intros pre t; [done|].
  cbn [length has_name_before_dot app].
  rewrite list_lookup_middle by done.
  destruct (decide (x = c)) as [->|Hx].
  - rewrite bool_decide_eq_true_2 by done.
    replace (pre ++ c :: s ++ t) with ((pre ++ [c]) ++ s ++ t)
      by by rewrite <- app_assoc.
    replace (S (length pre)) with (length (pre ++ [c]))
      by (rewrite length_app; simpl; lia).
    rewrite IH. apply bool_decide_ext. rewrite Forall_cons. tauto.
  - rewrite bool_decide_eq_false_2 by congruence.
    symmetry. apply bool_decide_eq_true_2.
    by intros [? _]%Forall_cons.
Qed.

Lemma dot_suffix_no_dot b named : ("."%char ∉ b) → dot_suffix b named = [].
Proof.
  revert named. induction b as [|x b IH]; intros named Hb; [done|].
  apply not_elem_of_cons in Hb as [Hx Hb]. cbn [dot_suffix].
  rewrite bool_decide_eq_false_2 by done. by apply IH.
Qed.

Lemma dot_suffix_split s e : ∀ named,
  ("."%char ∉ e) →
  dot_suffix (s ++ "."%char :: e) named
  = if named || bool_decide (¬ Forall (λ x, x = "."%char) s)
    then "."%char :: e else [].
Proof.
  induction s as [|x s IH]; intros named He; cbn [app dot_suffix].
  - rewrite (bool_decide_eq_true_2 ("."%char = "."%char)) by done.
    rewrite (bool_decide_eq_true_2 ("."%char ∉ e)) by done.
    rewrite (bool_decide_eq_false_2 (¬ Forall _ [])) by (intros H; by apply H).
    rewrite dot_suffix_no_dot by done. by destruct named.
  - destruct (decide (x = "."%char)) as [->|Hx].
    + rewrite (bool_decide_eq_true_2 ("."%char = "."%char)) by done.
      rewrite (bool_decide_eq_false_2 ("."%char ∉ s ++ "."%char :: e)).
      2:{ intros H. apply H, elem_of_app. right. apply list_elem_of_here. }
      rewrite andb_false_r, IH by done.
      replace (bool_decide (¬ Forall (λ x, x = "."%char) ("."%char :: s)))
        with (bool_decide (¬ Forall (λ x, x = "."%char) s)); [done|].
      apply bool_decide_ext. rewrite Forall_cons. tauto.
    + rewrite (bool_decide_eq_false_2 (x = "."%char)) by done.
      rewrite IH by done. cbn [orb].
      rewrite (bool_decide_eq_true_2 (¬ Forall _ (x :: s))).
      * by rewrite orb_true_r.
      * by intros [? _]%Forall_cons.
Qed.

(** [splitext] puts into the extension the part of the last component
    from its last dot on, unless only dots come before that dot. *)
Lemma splitext_component_ext p : (splitext p).2 = component_ext p.
Proof.
  unfold splitext, _splitext, component_ext.
  destruct (split_at_sep p) as (pre & r & Hp & Hr & Hsep & ->).
  destruct (rfind_spec p "."%char) as [[Hnot Hdot]|(l & e & Hl & He & Hdot)].
  - rewrite Hdot. replace (rfind p "/"%char <? -1)%Z with false by lia.
    cbn [andb snd].
    rewrite dot_suffix_no_dot; [done|].
    intros Hin. apply Hnot. rewrite Hp. apply elem_of_app. by right.
  - rewrite Hdot. destruct (decide (length pre ≤ length l)) as [Hle|Hgt].
    + assert (pre = take (length pre) l) as Hpre.
      { rewrite <- (take_app_le l ("."%char :: e)) by done.
        by rewrite <- Hl, Hp, take_app_length. }
      assert (l = pre ++ drop (length pre) l) as Hlpre.
      { rewrite Hpre at 1. by rewrite take_drop. }
      set (s := drop (length pre) l) in *.
      assert (r = s ++ "."%char :: e) as Hrs.
      { apply (app_inv_head pre). by rewrite <- Hp, Hl, Hlpre, <- app_assoc. }
      replace (rfind p "/"%char <? Z.of_nat (length l))%Z with true by lia.
      replace (Z.to_nat (rfind p "/"%char + 1)) with (length pre) by lia.
      replace (Z.to_nat (Z.of_nat (length l) - (rfind p "/"%char + 1)))
        with (length s).
      2:{ pose proof (f_equal length Hlpre) as Hlen.
          rewrite length_app in Hlen. lia. }
      rewrite Hrs, dot_suffix_split by done. cbn [orb andb].
      replace p with (pre ++ s ++ "."%char :: e) at 1 by by rewrite Hp, Hrs.
      rewrite has_name_before_dot_spec.
      destruct (bool_decide (¬ Forall (λ x, x = "."%char) s)); [|done].
      cbn [snd]. by rewrite Nat2Z.id, Hl, drop_app_length.
    + replace (rfind p "/"%char <? Z.of_nat (length l))%Z with false by lia.
      cbn [andb snd].
      rewrite dot_suffix_no_dot; [done|].
      assert (r = drop (length pre) p) as -> by by rewrite Hp at 1; rewrite drop_app_length.
      rewrite Hl, drop_app_ge by lia.
      replace (length pre - length l) with (S (length pre - S (length l))) by lia.
      cbn [drop]. by intros Hin%subseteq_drop.
Qed.

(** ** The new identifier *)

Lemma until_nul_id s : zero ∉ s → until_nul s = s.
Proof.
  induction s as [|c s IH]; intros Hs; [done|].
  apply not_elem_of_cons in Hs as [Hc Hs]. cbn [until_nul].
  rewrite bool_decide_eq_false_2 by congruence. by rewrite IH.
Qed.

Lemma strip_blank name : blank name = true → strip name = [].
Proof.
  unfold strip, blank. intros Hblank.
  assert (lstrip name = []) as ->; [|done].
  induction name as [|c name IH]; [done|].
  simpl in Hblank. apply andb_prop in Hblank as [Hc Hrest].
  cbn [lstrip]. rewrite Hc. by apply IH.
Qed.

(** The extension is a final part of the name. *)
Lemma splitext_ext_suffix p : ∃ k, (splitext p).2 = drop k p.
Proof.
  unfold splitext, _splitext.
  destruct (_ && _).
  - by eexists.
  - exists (length p). by rewrite drop_all.
Qed.

Lemma encoded_length_drop k s : (encoded_length (drop k s) ≤ encoded_length s)%Z.
Proof.
  unfold encoded_length. rewrite <- (take_drop k s) at 3 4.
  rewrite filter_app, !length_app. lia.
Qed.

(** A blank name leaves the extension, which [writestr] takes when there
    is one and the member name was an archive name. *)
Lemma accepted_extension name f :
  blank name = true → (splitext f).2 ≠ [] → archive_name f = true →
  new_name name f = (splitext f).2
  ∧ until_nul (splitext f).2 = (splitext f).2
  ∧ accepted (new_name name f) = true.
Proof.
  intros Hblank Hext [Hnul Hlen]%andb_prop.
  apply bool_decide_eq_true in Hnul, Hlen.
  unfold new_name. rewrite strip_blank by done. cbn [app].
  destruct (splitext_ext_suffix f) as [k Hk].
  assert (until_nul (splitext f).2 = (splitext f).2) as Hcut.
  { apply until_nul_id. rewrite Hk. by intros Hin%subseteq_drop. }
  repeat split; [done|].
  unfold accepted. rewrite Hcut.
  rewrite bool_decide_eq_true_2 by done.
  apply bool_decide_eq_true_2. rewrite Hk.
  pose proof (encoded_length_drop k f). lia.
Qed.

(** The extension is not simply what follows the last dot: the member
    .gitignore has none, nor has v1.2/readme.  With the names notes and
    doc they are written as notes and doc, where the last dot of the
    identifier would give notes.gitignore and doc.2/readme. *)
Lemma dotfile_extension_counterexample :
  (process_and_rename_zip noon
     (Ok [Member (py ".gitignore") (Ok [x2a]); Member (py "v1.2/readme") (Ok [x2b])])
     [py "notes"; py "doc"]).1
  = Some [Written (py "notes") (noon 0) [x2a]; Written (py "doc") (noon 1) [x2b]]
  ∧ strip (py "notes") ++ ext_from_last_dot (py ".gitignore") = py "notes.gitignore"
  ∧ strip (py "doc") ++ ext_from_last_dot (py "v1.2/readme") = py "doc.2/readme"
  ∧ py "notes" ≠ py "notes.gitignore"
  ∧ py "doc" ≠ py "doc.2/readme".
Proof. repeat split; by vm_compute. Qed.

(** C4, amended.  In a run without a fault the member written for the
    sorted file [i] is named by the trimmed name [i] followed by the
    extension of the file, cut at a null byte if it has one.  The
    extension is that of [os.path.splitext]: the part of the last path
    component (what follows the last [/]) from its last dot on, provided
    a character other than a dot stands before that dot in the component;
    otherwise it is empty. *)
Theorem renamed_identifier (clock : nat → date_time)
    (input_zip : list member) (names : list str) :
  length names = length (file_entries input_zip) →
  Forall (λ m, readable m = true) (file_entries input_zip) →
  Forall2 (λ n f, accepted (new_name n f) = true) names (original_files input_zip) →
  ∃ out,
    (process_and_rename_zip clock (Ok input_zip) names).1 = Some out
    ∧ ∀ i f n,
        original_files input_zip !! i = Some f → names !! i = Some n →
        ∃ o, out !! i = Some o
             ∧ arcname o = until_nul (strip n ++ component_ext f)
             ∧ (zero ∉ strip n ++ component_ext f →
                arcname o = strip n ++ component_ext f).
Proof.
  intros Hlen Hread Hacc.
  destruct (process_clean clock input_zip names (clean_intro _ _ Hlen Hread Hacc))
    as (out & w & Hrun & _ & _ & _ & Hall).
  exists out. rewrite Hrun. split; [done|].
  intros i f n Hf Hn.
  destruct (Hall i f Hf) as (n' & d & Hn' & _ & Ho).
  rewrite Hn in Hn'. injection Hn' as <-.
  eexists. split; [exact Ho|]. cbn [arcname].
  unfold new_name. rewrite splitext_component_ext.
  split; [done|]. apply until_nul_id.
Qed.

(** The members report and 3.png with the names photo (between spaces)
    and final: 3.png is taken first and becomes photo.png, report becomes
    final. *)
Lemma renamed_identifier_witness :
  ∃ out,
    (process_and_rename_zip noon
       (Ok [Member (py "report") (Ok [x52]); Member (py "3.png") (Ok [x50])])
       [py " photo "; py "final"]).1 = Some out
    ∧ arcname <$> out = [py "photo.png"; py "final"].
Proof.
  destruct (renamed_identifier noon
              [Member (py "report") (Ok [x52]); Member (py "3.png") (Ok [x50])]
              [py " photo "; py "final"]) as (out & Hret & _).
  - by vm_compute.
  - by_running.
  - by_running.
  - exists out. split; [exact Hret|].
    vm_compute in Hret. by injection Hret as <-.
Defined.

(** ** Blank names *)

(** A blank name on a member without extension gives the empty
    identifier, and [writestr] reads the last character of the name: the
    run ends in [IndexError] and returns nothing. *)
Lemma blank_name_counterexample :
  process_and_rename_zip noon (Ok [Member (py "report") (Ok [x52])]) [py "   "]
  = (None,
     World []
       [StError (py "An error occurred during file processing: string index out of range")]
       [py "report"])
  ∧ process_and_rename_zip noon (Ok [Member (py "report") (Ok [x52])]) [[]]
    = (None,
       World []
         [StError (py "An error occurred during file processing: string index out of range")]
         [py "report"]).
Proof. split; by vm_compute. Qed.

(** C10, amended.  Let every blank name (nothing but whitespace, or
    empty) meet a file that has an extension and whose name is an archive
    name, and let the other names give identifiers that [writestr] takes,
    in a run that is otherwise without a fault.  Then the function returns
    an archive with one member per file entry, and the member written for
    a blank name is named by the extension of its file alone. *)
Theorem blank_name_keeps_extension (clock : nat → date_time)
    (input_zip : list member) (names : list str) :
  length names = length (file_entries input_zip) →
  Forall (λ m, readable m = true) (file_entries input_zip) →
  Forall2
    (λ n f,
       (if blank n
        then bool_decide ((splitext f).2 ≠ []) && archive_name f
        else accepted (new_name n f)) = true)
    names (original_files input_zip) →
  ∃ out,
    (process_and_rename_zip clock (Ok input_zip) names).1 = Some out
    ∧ length out = length (file_entries input_zip)
    ∧ ∀ i n f,
        names !! i = Some n → original_files input_zip !! i = Some f →
        blank n = true →
        ∃ o, out !! i = Some o
             ∧ arcname o = (splitext f).2
             ∧ arcname o = component_ext f
             ∧ arcname o ≠ [].
Proof.
  intros Hlen Hread Hnames.
  assert (Forall2 (λ n f, accepted (new_name n f) = true) names
            (original_files input_zip)) as Hacc.
  { eapply Forall2_impl; [exact Hnames|]. intros n f Hnf. simpl in Hnf.
    destruct (blank n) eqn:Hblank; [|done].
    apply andb_prop in Hnf as [Hext%bool_decide_eq_true Harch].
    by apply accepted_extension. }
  destruct (process_clean clock input_zip names (clean_intro _ _ Hlen Hread Hacc))
    as (out & w & Hrun & _ & _ & Hout & Hall).
  exists out. rewrite Hrun. split; [done|].
  split; [by rewrite Hout, length_original_files|].
  intros i n f Hn Hf Hblank.
  pose proof (Forall2_lookup_lr _ _ _ _ _ _ Hnames Hn Hf) as Hnf. simpl in Hnf.
  rewrite Hblank in Hnf.
  apply andb_prop in Hnf as [Hext%bool_decide_eq_true Harch].
  destruct (accepted_extension n f Hblank Hext Harch) as (Hnew & Hcut & _).
  destruct (Hall i f Hf) as (n' & d & Hn' & _ & Ho).
  rewrite Hn in Hn'. injection Hn' as <-.
  eexists. split; [exact Ho|]. cbn [arcname].
  rewrite Hnew, Hcut, <- splitext_component_ext. done.
Qed.

(** The member 7.png with a name of three spaces becomes .png. *)
Lemma blank_name_keeps_extension_witness :
  ∃ out,
    (process_and_rename_zip noon
       (Ok [Member (py "7.png") (Ok [x50]); Member (py "8.txt") (Ok [x54])])
       [py "   "; py "eight"]).1 = Some out
    ∧ arcname <$> out = [py ".png"; py "eight.txt"].
Proof.
  destruct (blank_name_keeps_extension noon
              [Member (py "7.png") (Ok [x50]); Member (py "8.txt") (Ok [x54])]
              [py "   "; py "eight"]) as (out & Hret & _).
  - by vm_compute.
  - by_running.
  - by_running.
  - exists out. split; [exact Hret|].
    vm_compute in Hret. by injection Hret as <-.
Defined.


(** * Further properties *)

(** ** Progress of the loop *)

Lemma turn_Ok input_zip names i f :
  step_ok input_zip names i f
  ↔ ∃ n, names !! i = Some n ∧ went_through input_zip n f = true.
Proof.
  unfold step_ok, went_through, turn. split.
  - intros (n & d & Hn & Hd & Hacc). exists n. by rewrite Hd, Hacc.
  - intros (n & Hn & Hturn). exists n.
    destruct (member_data input_zip f) as [d|e]; [|done].
    destruct (accepted (new_name n f)) eqn:Hacc; [|done]. by exists d.
Qed.

Section loop_progress.
Variable clock : nat → date_time.
Variable input_zip : list member.
Variable names : list str.

(** The loop up to its first turn that raises: the files before it are
    written and reported one by one, the file of that turn is opened, and
    the exception of that turn ends the loop. *)
Lemma rename_loop_stops files : ∀ i w k f n e,
  Forall2 (λ n g, went_through input_zip n g = true)
    (take k (drop i names)) (take k files) →
  files !! k = Some f → names !! (i + k) = Some n →
  turn input_zip n f = Raise e →
  ∃ outs,
    rename_loop clock input_zip names i files w
    = (Raise e,
       World (output_zip w ++ outs)
         (st_calls w ++ zip_with renamed_call (take k (drop i names)) (take k files))
         (opened w ++ take (S k) files))
    ∧ length outs = k.
Proof.
  induction files as [|g rest IH]; intros i w k f n e Hbefore Hf Hn Hturn; [done|].
  rewrite rename_loop_cons. destruct k as [|k].
  - injection Hf as ->. rewrite Nat.add_0_r in Hn. rewrite Hn.
    exists []. rewrite !take_0, !app_nil_r. cbn [zip_with take].
    unfold turn in Hturn.
    destruct (member_data input_zip f) as [d|e']; [|by injection Hturn as ->].
    destruct (accepted (new_name n f)); [done|]. by injection Hturn as ->.
  - cbn [lookup list_lookup] in Hf.
    destruct (names !! i) as [m|] eqn:Hm.
    2:{ apply lookup_ge_None in Hm. apply lookup_lt_Some in Hn. lia. }
    rewrite (drop_S _ _ _ Hm) in Hbefore |- *. cbn [take] in Hbefore |- *.
    apply Forall2_cons in Hbefore as [Hg Hbefore].
    unfold went_through, turn in Hg.
    destruct (member_data input_zip g) as [d|]; [|done].
    destruct (accepted (new_name m g)); [|done].
    destruct (IH (S i) (after_rename clock m g d w) k f n e) as (outs & -> & Hlen);
      [done|done|by replace (S i + k) with (i + S k) by lia|done|].
    eexists (_ :: outs). split; [|by rewrite <- Hlen].
    cbn [after_rename output_zip st_calls opened zip_with].
    by rewrite <- !app_assoc.
Qed.

(** The loop when every turn goes through: the messages are the
    successes of the files, in order. *)
Lemma rename_loop_calls files : ∀ i w w',
  rename_loop clock input_zip names i files w = (Ok (), w') →
  st_calls w' = st_calls w ++ zip_with renamed_call (drop i names) files.
Proof.
  induction files as [|g rest IH]; intros i w w' Hrun.
  - injection Hrun as <-. by rewrite zip_with_nil_r, app_nil_r.
  - rewrite rename_loop_cons in Hrun.
    destruct (names !! i) as [m|] eqn:Hm; [|done].
    destruct (member_data input_zip g) as [d|]; [|done].
    destruct (accepted (new_name m g)); [|done].
    apply IH in Hrun. rewrite Hrun, (drop_S _ _ _ Hm).
    cbn [after_rename st_calls zip_with]. by rewrite <- app_assoc.
Qed.
End loop_progress.
Lemma process_clean_world (clock : nat → date_time)
    (input_zip : list member) (names : list str) :
  length names = length (file_entries input_zip) →
  Forall (λ m, readable m = true) (file_entries input_zip) →
  Forall2 (λ n f, accepted (new_name n f) = true) names (original_files input_zip) →
  ∃ out,
    process_and_rename_zip clock (Ok input_zip) names
    = (Some out,
       World out
         (zip_with (λ n f, StSuccess (renamed_message f (new_name n f)))
            names (original_files input_zip))
         (original_files input_zip))
    ∧ length out = length names.
Proof.
  intros Hlen Hread Hacc.
  pose proof (clean_intro _ _ Hlen Hread Hacc) as [Hlen' Hok].
  destruct (rename_loop_ok clock input_zip names (original_files input_zip) 0 initial)
    as (outs & w' & Hrun & Hout & Hop & Hl & _); [done|].
  pose proof (rename_loop_calls _ _ _ _ _ _ _ Hrun) as Hcalls.
  exists outs. rewrite process_readable, bool_decide_eq_false_2 by (by intros []).
  rewrite Hrun. destruct w' as [o c p]. simpl in *. subst o c p.
  split; [done | congruence].
Qed.

(** X1.  A run without a fault reports every file.  The function returns
    the output archive as closed; its messages are one success per file,
    in the order of the sort, each naming the file and its new
    identifier; and the members opened are the files in that order. *)
Theorem clean_run_reports_every_file (clock : nat → date_time)
    (input_zip : list member) (names : list str) :
  length names = length (file_entries input_zip) →
  Forall (λ m, readable m = true) (file_entries input_zip) →
  Forall2 (λ n f, accepted (new_name n f) = true) names (original_files input_zip) →
  ∃ out,
    process_and_rename_zip clock (Ok input_zip) names
    = (Some out,
       World out
         (zip_with (λ n f, StSuccess (renamed_message f (new_name n f)))
            names (original_files input_zip))
         (original_files input_zip))
    ∧ length out = length names.
Proof. apply process_clean_world. Qed.

(** The files 2.txt and 1.txt with the names one and two. *)
Lemma clean_run_reports_every_file_witness :
  process_and_rename_zip noon
    (Ok [Member (py "2.txt") (Ok [x42]); Member (py "1.txt") (Ok [x41])])
    [py "one"; py "two"]
  = (Some [Written (py "one.txt") (noon 0) [x41]; Written (py "two.txt") (noon 1) [x42]],
     World [Written (py "one.txt") (noon 0) [x41]; Written (py "two.txt") (noon 1) [x42]]
       [StSuccess (py "Renamed '1.txt' to 'one.txt'");
        StSuccess (py "Renamed '2.txt' to 'two.txt'")]
       [py "1.txt"; py "2.txt"]).
Proof.
  destruct (clean_run_reports_every_file noon
              [Member (py "2.txt") (Ok [x42]); Member (py "1.txt") (Ok [x41])]
              [py "one"; py "two"]) as (out & Hrun & _).
  - by vm_compute.
  - by_running.
  - by_running.
  - by vm_compute.
Defined.

(** X2.  The first fault ends the run.  Let the counts agree, let the
    turns of the first [k] files go through, and let the turn of file
    [k] raise [e], because its content cannot be read or because
    [writestr] refuses its new name.  Then nothing is returned; [k]
    members had been written; the messages are the [k] successes and then
    the error with the text of [e]; file [k] is the last one opened, so no
    later file is touched. *)
Theorem first_fault_ends_the_run (clock : nat → date_time)
    (input_zip : list member) (names : list str) (k : nat) (f n : str) (e : exn) :
  length names = length (file_entries input_zip) →
  Forall2 (λ n g, went_through input_zip n g = true)
    (take k names) (take k (original_files input_zip)) →
  original_files input_zip !! k = Some f →
  names !! k = Some n →
  turn input_zip n f = Raise e →
  ∃ outs,
    process_and_rename_zip clock (Ok input_zip) names
    = (None,
       World outs
         (zip_with (λ n f, StSuccess (renamed_message f (new_name n f)))
            (take k names) (take k (original_files input_zip))
          ++ [StError (failure_message e)])
         (take (S k) (original_files input_zip)))
    ∧ length outs = k.
Proof.
  intros Hlen Hbefore Hf Hn Hturn.
  destruct (rename_loop_stops clock input_zip names (original_files input_zip)
              0 initial k f n e) as (outs & Hrun & Hk); [done..|].
  exists outs. split; [|done].
  rewrite process_readable, length_original_files.
  rewrite bool_decide_eq_false_2 by (by intros []).
  by rewrite Hrun.
Qed.

(** The second of three files fails its check. *)
Lemma first_fault_ends_the_run_witness :
  ∃ outs,
    process_and_rename_zip noon
      (Ok [Member (py "1.txt") (Ok [x41]);
           Member (py "2.txt") (Raise (Exn "BadZipFile" (py "Bad CRC-32 for file '2.txt'")));
           Member (py "3.txt") (Ok [x43])])
      [py "a"; py "b"; py "c"]
    = (None,
       World outs
         [StSuccess (py "Renamed '1.txt' to 'a.txt'");
          StError (py "An error occurred during file processing: Bad CRC-32 for file '2.txt'")]
         [py "1.txt"; py "2.txt"])
    ∧ length outs = 1.
Proof.
  apply (first_fault_ends_the_run noon
           [Member (py "1.txt") (Ok [x41]);
            Member (py "2.txt") (Raise (Exn "BadZipFile" (py "Bad CRC-32 for file '2.txt'")));
            Member (py "3.txt") (Ok [x43])]
           [py "a"; py "b"; py "c"] 1 (py "2.txt") (py "b")
           (Exn "BadZipFile" (py "Bad CRC-32 for file '2.txt'"))).
  - by vm_compute.
  - by_running.
  - by vm_compute.
  - by vm_compute.
  - by vm_compute.
Defined.

(** ** Base name and extension *)

Lemma splitext_root_ext p : (splitext p).1 ++ (splitext p).2 = p.
Proof.
  unfold splitext, _splitext. destruct (_ && _); cbn [fst snd].
  - apply take_drop.
  - apply app_nil_r.
Qed.

Lemma dot_suffix_shape b : ∀ named,
  (∃ r, b = r ++ dot_suffix b named)
  ∧ (dot_suffix b named = []
     ∨ ∃ e, dot_suffix b named = "."%char :: e ∧ ("."%char ∉ e)).
Proof.
  induction b as [|c b IH]; intros named; cbn [dot_suffix].
  - split; [by exists [] | by left].
  - destruct (decide (c = "."%char)) as [->|Hc].
    + rewrite (bool_decide_eq_true_2 ("."%char = "."%char)) by done.
      destruct (named && bool_decide ("."%char ∉ b)) eqn:Hlast.
      * apply andb_prop in Hlast as [_ Hb%bool_decide_eq_true].
        split; [by exists [] | right; by exists b].
      * destruct (IH named) as [[r Hr] Hshape].
        split; [|done]. exists ("."%char :: r). by rewrite <- app_comm_cons, <- Hr.
    + rewrite (bool_decide_eq_false_2 (c = "."%char)) by done.
      destruct (IH true) as [[r Hr] Hshape].
      split; [|done]. exists (c :: r). by rewrite <- app_comm_cons, <- Hr.
Qed.

(** The extension is empty, or a dot and then neither dot nor slash. *)
Lemma splitext_ext_shape p :
  (splitext p).2 = []
  ∨ ∃ e, (splitext p).2 = "."%char :: e ∧ ("."%char ∉ e) ∧ ("/"%char ∉ e).
Proof.
  rewrite splitext_component_ext. unfold component_ext.
  destruct (split_at_sep p) as (pre & b & _ & Hb & _ & ->).
  destruct (dot_suffix_shape b false) as [[r Hr] [Hnil|(e & He & Hdot)]]; [by left|].
  right. exists e. repeat split; [done..|].
  intros Hin. apply Hb. rewrite Hr, He.
  apply elem_of_app. right. by apply list_elem_of_further.
Qed.

Lemma last_component_app s t :
  ("/"%char ∉ t) → last_component (s ++ t) = last_component s ++ t.
Proof.
  intros Ht. induction s as [|c s IH].
  - destruct t as [|x t]; [done|]. cbn [app last_component].
    by rewrite bool_decide_eq_false_2.
  - cbn [app last_component].
    destruct (decide ("/"%char ∈ c :: s)) as [Hin|Hnot].
    + rewrite (bool_decide_eq_true_2 ("/"%char ∈ c :: s)) by done.
      rewrite bool_decide_eq_true_2; [done|].
      rewrite app_comm_cons. apply elem_of_app. by left.
    + rewrite (bool_decide_eq_false_2 ("/"%char ∈ c :: s)) by done.
      rewrite bool_decide_eq_false_2; [done|].
      rewrite app_comm_cons. intros [?|?]%elem_of_app; done.
Qed.

(** A name whose last component is more than dots, followed by an
    extension, splits into the two again. *)
Lemma splitext_append s e :
  ¬ Forall (λ c, c = "."%char) (last_component s) →
  ("."%char ∉ e) → ("/"%char ∉ e) →
  splitext (s ++ "."%char :: e) = (s, "."%char :: e).
Proof.
  intros Hname Hdot Hsep.
  assert ((splitext (s ++ "."%char :: e)).2 = "."%char :: e) as Hext.
  { rewrite splitext_component_ext. unfold component_ext.
    rewrite last_component_app.
    2:{ intros [?|?]%elem_of_cons; done. }
    rewrite dot_suffix_split by done.
    by rewrite (bool_decide_eq_true_2 _ Hname). }
  pose proof (splitext_root_ext (s ++ "."%char :: e)) as Hparts.
  rewrite Hext in Hparts. apply app_inv_tail in Hparts.
  destruct (splitext (s ++ "."%char :: e)) as [root ext]. simpl in *. congruence.
Qed.

(** X3.  Base name and extension of a file name.  The two together are
    the name again; the extension the renamer appends is empty, or it is
    one dot followed by characters that are neither a dot nor a slash. *)
Theorem base_name_and_extension (f : str) :
  (splitext f).1 ++ (splitext f).2 = f
  ∧ ((splitext f).2 = []
     ∨ ∃ e, (splitext f).2 = "."%char :: e ∧ ("."%char ∉ e) ∧ ("/"%char ∉ e)).
Proof. split; [apply splitext_root_ext | apply splitext_ext_shape]. Qed.

(** X4.  The new identifier splits into the trimmed name and the old
    extension.  When the file has an extension and the last path
    component of the trimmed name holds a character other than a dot,
    [splitext] of the new identifier gives the trimmed name as base name
    and the extension of the file as extension: a second renaming would
    find the same extension. *)
Theorem new_identifier_keeps_extension (name f : str) :
  (splitext f).2 ≠ [] →
  ¬ Forall (λ c, c = "."%char) (last_component (strip name)) →
  splitext (new_name name f) = (strip name, (splitext f).2).
Proof.
  intros Hext Hname. unfold new_name.
  destruct (splitext_ext_shape f) as [?|(e & -> & Hdot & Hsep)]; [done|].
  by apply splitext_append.
Qed.

(** The name photo between spaces on the file 3.png. *)
Lemma new_identifier_keeps_extension_witness :
  splitext (new_name (py " photo ") (py "3.png")) = (py "photo", py ".png").
Proof.
  apply (new_identifier_keeps_extension (py " photo ") (py "3.png")).
  - by vm_compute.
  - apply (bool_decide_unpack _). by vm_compute.
Defined.

(** ** Files in folders *)

Lemma int_digits_chars s : ∀ b acc n r,
  int_digits s b acc n = Some r →
  Forall (λ c, isdigit c = true ∨ c = "_"%char) s.
Proof.
  induction s as [|c s IH]; intros b acc n r Hr; [constructor|].
  cbn [int_digits] in Hr. unfold digit in Hr. fold (isdigit c) in Hr.
  destruct (isdigit c) eqn:Hc.
  - constructor; [by left | by eapply IH].
  - destruct (decide (c = "_"%char)) as [->|Hne].
    + constructor; [by right|].
      rewrite (bool_decide_eq_true_2 ("_"%char = "_"%char)) in Hr by done.
      destruct b; cbn [andb] in Hr; [by eapply IH | done].
    + by rewrite bool_decide_eq_false_2 in Hr.
Qed.

Lemma int_lstrip_keeps c s :
  int_isspace c = false → c ∈ s → c ∈ int_lstrip s.
Proof.
  intros Hc. induction s as [|x s IH]; [done|].
  intros Hin. cbn [int_lstrip]. destruct (int_isspace x) eqn:Hx; [|done].
  apply elem_of_cons in Hin as [->|Hin]; [congruence | by apply IH].
Qed.

Lemma int_rstrip_keeps c s :
  int_isspace c = false → c ∈ s → c ∈ int_rstrip s.
Proof.
  intros Hc Hin. unfold int_rstrip.
  by apply elem_of_reverse, int_lstrip_keeps, elem_of_reverse.
Qed.

(** What [int] does with the first character: a sign is taken off,
    anything else stays. *)
Lemma int_sign c s :
  match c with
  | "-"%char => (true, s)
  | "+"%char => (false, s)
  | _ => (false, c :: s)
  end
  = (bool_decide (c = "-"%char),
     if bool_decide (c = "-"%char ∨ c = "+"%char) then s else c :: s).
Proof. by destruct c as [[] [] [] [] [] [] [] []]. Qed.

Lemma int_no_slash s : ("/"%char ∈ s) → int s = None.
Proof.
  intros Hin. unfold int.
  assert ("/"%char ∈ int_rstrip (int_lstrip s)) as Hin'
    by by apply int_rstrip_keeps, int_lstrip_keeps.
  destruct (int_rstrip (int_lstrip s)) as [|c body]; [by apply elem_of_nil in Hin'|].
  rewrite int_sign.
  set (text := if bool_decide (c = "-"%char ∨ c = "+"%char) then body else c :: body).
  assert ("/"%char ∈ text) as Htext.
  { unfold text. case_bool_decide as Hsign; [|done].
    apply elem_of_cons in Hin' as [<-|?]; [|done]. by destruct Hsign. }
  destruct (int_digits text false 0 0) as [[v n]|] eqn:Hdigits; [|done].
  apply int_digits_chars in Hdigits. rewrite Forall_forall in Hdigits.
  by destruct (Hdigits _ Htext).
Qed.

(** X5.  Files in folders are not numbered.  The sort key is read from
    the whole path without its extension, so a member whose name holds a
    slash has the key [inf] whatever its last component is, and is taken
    after every numbered file. *)
Theorem folder_file_has_no_number (f : str) :
  ("/"%char ∈ f) → get_number f = KInf.
Proof.
  intros Hin. rewrite get_number_int, int_no_slash; [done|].
  rewrite <- (splitext_root_ext f) in Hin.
  apply elem_of_app in Hin as [?|Hext]; [done|].
  destruct (splitext_ext_shape f) as [Hnil|(e & He & _ & Hsep)].
  - rewrite Hnil in Hext. by apply elem_of_nil in Hext.
  - rewrite He in Hext. apply elem_of_cons in Hext as [?|?]; done.
Qed.

(** The member 3.png of the folder dir. *)
Lemma folder_file_has_no_number_witness :
  get_number (py "dir/3.png") = KInf ∧ get_number (py "3.png") = KInt 3.
Proof.
  split; [|by vm_compute].
  apply (folder_file_has_no_number (py "dir/3.png")).
  apply (bool_decide_unpack _). by vm_compute.
Defined.

(** ** Files named by a number *)

Lemma isdigit_not_space c : isdigit c = true → int_isspace c = false.
Proof.
  unfold isdigit, int_isspace, between. intros [H1 H2]%andb_prop.
  apply Z.leb_le in H1, H2.
  replace (ord c <=? 13)%Z with false by (symmetry; apply Z.leb_gt; lia).
  replace (ord c =? 32)%Z with false by (symmetry; apply Z.eqb_neq; lia).
  replace (ord c =? 133)%Z with false by (symmetry; apply Z.eqb_neq; lia).
  replace (ord c =? 160)%Z with false by (symmetry; apply Z.eqb_neq; lia).
  by rewrite andb_false_r.
Qed.

Lemma isdigit_not_sign c :
  isdigit c = true → ¬ (c = "-"%char ∨ c = "+"%char) ∧ c ≠ "."%char ∧ c ≠ "/"%char.
Proof. intros Hc. repeat split; try intros [->| ->]; try intros ->; done. Qed.

Lemma int_digits_value ds : ∀ b acc n,
  Forall (λ c, isdigit c = true) ds → ds ≠ [] →
  int_digits ds b acc n = Some (digits_value ds acc, n + length ds).
Proof.
  induction ds as [|c ds IH]; intros b acc n Hds Hne; [done|].
  apply Forall_cons in Hds as [Hc Hds].
  cbn [int_digits]. unfold digit. fold (isdigit c). rewrite Hc.
  destruct ds as [|c' ds'].
  - cbn. do 2 f_equal. lia.
  - rewrite IH by done. unfold digits_value. cbn [fold_left length].
    do 2 f_equal. lia.
Qed.

Lemma pretty_N_char_digit d :
  (d < 10)%N →
  isdigit (pretty_N_char d) = true
  ∧ ord (pretty_N_char d) = (48 + Z.of_N d)%Z.
Proof.
  intros Hd. destruct d as [|p]; [done|].
  repeat (destruct p as [p|p|]; try done; try lia).
Qed.

(** The text [pretty_N_go] puts in front of [s]: the decimal digits of
    [x], none when [x] is 0. *)
Lemma pretty_N_go_digits x :
  ∃ ds,
    (∀ s, py (pretty_N_go x s) = ds ++ py s)
    ∧ Forall (λ c, isdigit c = true) ds
    ∧ (∀ acc, digits_value ds acc
              = (acc * 10 ^ Z.of_nat (length ds) + Z.of_N x)%Z)
    ∧ (x = 0%N → ds = [])
    ∧ ((0 < x)%N → ds ≠ [] ∧ (10 ^ (Z.of_nat (length ds) - 1) ≤ Z.of_N x)%Z).
Proof.
  induction (N.lt_wf_0 x) as [x _ IH].
  destruct (decide (x = 0%N)) as [->|Hx].
  { exists []. split; [|split; [|split; [|split]]].
    - intros s. by rewrite pretty_N_go_0.
    - constructor.
    - intros acc. cbn. lia.
    - done.
    - lia. }
  assert (0 < x)%N as Hpos by lia.
  pose proof (N.div_mod x 10) as Hdm. pose proof (N.mod_lt x 10) as Hlt.
  set (q := (x `div` 10)%N) in *. set (r := (x `mod` 10)%N) in *.
  destruct (IH q) as (ds & Htext & Hdigits & Hvalue & Hzero & Hbound); [lia|].
  destruct (pretty_N_char_digit r) as [Hr Hord]; [lia|].
  exists (ds ++ [pretty_N_char r]).
  assert ((10 ^ Z.of_nat (length (ds ++ [pretty_N_char r])))%Z
          = (10 ^ Z.of_nat (length ds) * 10)%Z) as Hpow.
  { rewrite length_app, Nat2Z.inj_add, Z.pow_add_r by lia. done. }
  split; [|split; [|split; [|split; [|split]]]].
  - intros s. rewrite pretty_N_go_step by done. fold q r.
    rewrite Htext. cbn [py list_ascii_of_string]. by rewrite <- app_assoc.
  - apply Forall_app. split; [done|]. by constructor.
  - intros acc. unfold digits_value. rewrite fold_left_app. cbn [fold_left].
    fold (digits_value ds acc). rewrite Hvalue, Hpow, Hord. lia.
  - lia.
  - by destruct ds.
  - rewrite length_app, Nat2Z.inj_add. cbn [length].
    replace (Z.of_nat (length ds) + Z.of_nat 1 - 1)%Z with (Z.of_nat (length ds)) by lia.
    destruct (decide (q = 0%N)) as [Hq|Hq].
    + rewrite (Hzero Hq). cbn. lia.
    + destruct Hbound as [Hne Hle]; [lia|].
      assert (0 < length ds) by (destruct ds; [done | cbn; lia]).
      replace (Z.of_nat (length ds)) with (Z.of_nat (length ds) - 1 + 1)%Z by lia.
      rewrite Z.pow_add_r by lia. lia.
Qed.

Lemma int_lstrip_digits ds :
  Forall (λ c, isdigit c = true) ds → int_lstrip ds = ds.
Proof.
  intros Hds. destruct Hds as [|c ds Hc _]; [done|].
  cbn [int_lstrip]. by rewrite isdigit_not_space.
Qed.

(** [int] reads the digits of a number back, within the limit on the
    number of digits. *)
Lemma int_decimal (n : nat) :
  (Z.of_nat n < 10 ^ Z.of_nat int_max_str_digits)%Z →
  int (py (pretty n)) = Some (Z.of_nat n)
  ∧ py (pretty n) ≠ []
  ∧ Forall (λ c, isdigit c = true) (py (pretty n)).
Proof.
  intros Hn. unfold pretty, pretty_nat, pretty, pretty_N.
  set (limit := int_max_str_digits) in *.
  set (bound := (10 ^ Z.of_nat limit)%Z) in *.
  destruct (decide (N.of_nat n = 0%N)) as [Hz|Hz].
  { replace n with 0 by lia. split; [by vm_compute|]. split; [done|]. by repeat constructor. }
  destruct (pretty_N_go_digits (N.of_nat n))
    as (ds & Htext & Hdigits & Hvalue & _ & Hbound).
  destruct Hbound as [Hne Hle]; [lia|].
  rewrite Htext. cbn [py list_ascii_of_string]. rewrite app_nil_r.
  split; [|done].
  assert (length ds ≤ limit) as Hlen.
  { destruct (decide (length ds ≤ limit)) as [|Hlong]; [done|].
    assert (bound ≤ 10 ^ (Z.of_nat (length ds) - 1))%Z
      by (apply Z.pow_le_mono_r; lia).
    lia. }
  unfold int. fold limit.
  assert (int_rstrip (int_lstrip ds) = ds) as ->.
  { rewrite int_lstrip_digits by done. unfold int_rstrip.
    rewrite int_lstrip_digits, reverse_involutive; [done|].
    by apply Forall_reverse. }
  destruct ds as [|c ds]; [done|].
  rewrite int_sign.
  apply Forall_cons in Hdigits as Hc. destruct Hc as [Hc _].
  destruct (isdigit_not_sign c Hc) as (Hsign & _ & _).
  rewrite (bool_decide_eq_false_2 _ Hsign).
  rewrite (bool_decide_eq_false_2 (c = "-"%char)) by (intros ->; by apply Hsign; left).
  rewrite int_digits_value, Hvalue by done.
  rewrite (bool_decide_eq_false_2 (limit < 0 + length (c :: ds))) by lia.
  rewrite andb_false_r. f_equal. lia.
Qed.

(** X6.  A file named by a number is sorted by that number.  For a
    natural number within the limit of [int] on digits, the key of the
    file named by its decimal numeral is the number, with no extension
    and with any extension. *)
Theorem numbered_file_key (n : nat) (e : str) :
  (Z.of_nat n < 10 ^ Z.of_nat int_max_str_digits)%Z →
  ("."%char ∉ e) → ("/"%char ∉ e) →
  get_number (py (pretty n)) = KInt (Z.of_nat n)
  ∧ get_number (py (pretty n) ++ "."%char :: e) = KInt (Z.of_nat n).
Proof.
  intros Hn Hdot Hsep.
  destruct (int_decimal n Hn) as (Hint & Hne & Hdigits).
  set (ds := py (pretty n)) in *.
  assert (("."%char ∉ ds) ∧ ("/"%char ∉ ds)) as [Hnodot Hnosep].
  { rewrite Forall_forall in Hdigits.
    split; intros Hin%Hdigits; by destruct (isdigit_not_sign _ Hin) as (_ & ? & ?). }
  assert (last_component ds = ds) as Hlast.
  { destruct ds as [|c ds']; [done|]. cbn [last_component].
    by rewrite bool_decide_eq_false_2. }
  split; rewrite get_number_int.
  - assert ((splitext ds).2 = []) as Hext.
    { rewrite splitext_component_ext. unfold component_ext.
      rewrite Hlast. by apply dot_suffix_no_dot. }
    pose proof (splitext_root_ext ds) as Hparts.
    rewrite Hext, app_nil_r in Hparts. by rewrite Hparts, Hint.
  - rewrite splitext_append; [by cbn [fst]; rewrite Hint|..|done|done].
    rewrite Hlast. intros Hall.
    destruct ds as [|c ds']; [done|].
    apply Forall_cons in Hall as [-> _]. apply Hnodot, list_elem_of_here.
Qed.

(** The file 10.jpg. *)
Lemma numbered_file_key_witness :
  get_number (py "10") = KInt 10 ∧ get_number (py "10.jpg") = KInt 10.
Proof.
  apply (numbered_file_key 10 (py "jpg")).
  - by vm_compute.
  - apply (bool_decide_unpack _). by vm_compute.
  - apply (bool_decide_unpack _). by vm_compute.
Defined.
(** ** Names that are no numbers *)

Lemma int_other_char x s :
  isdigit x = false → x ≠ "_"%char → x ≠ "-"%char → x ≠ "+"%char →
  int_isspace x = false → x ∈ s → int s = None.
Proof.
  intros Hdigit Hunder Hminus Hplus Hspace Hin. unfold int.
  assert (x ∈ int_rstrip (int_lstrip s)) as Hin'
    by by apply int_rstrip_keeps, int_lstrip_keeps.
  destruct (int_rstrip (int_lstrip s)) as [|c body]; [by apply elem_of_nil in Hin'|].
  rewrite int_sign.
  set (text := if bool_decide (c = "-"%char ∨ c = "+"%char) then body else c :: body).
  assert (x ∈ text) as Htext.
  { unfold text. case_bool_decide as Hsign; [|done].
    apply elem_of_cons in Hin' as [->|?]; [|done]. by destruct Hsign. }
  destruct (int_digits text false 0 0) as [[v n]|] eqn:Hdigits; [|done].
  apply int_digits_chars in Hdigits. rewrite Forall_forall in Hdigits.
  destruct (Hdigits _ Htext); congruence.
Qed.

(** X7.  A name that is no number.  If the name without its extension
    holds a character that is no digit, no underscore, no sign and no
    white space of [int], then [int] raises [ValueError] and the key of
    the file is [inf]: a file such as img1.png is taken after every
    numbered file. *)
Theorem lettered_file_has_no_number (f : str) (x : ascii) :
  x ∈ (splitext f).1 →
  isdigit x = false →
  x ≠ "_"%char → x ≠ "-"%char → x ≠ "+"%char →
  int_isspace x = false →
  get_number f = KInf.
Proof.
  intros Hin Hdigit Hunder Hminus Hplus Hspace.
  by rewrite get_number_int, (int_other_char x).
Qed.

(** The file img1.png and the letter i. *)
Lemma lettered_file_has_no_number_witness :
  get_number (py "img1.png") = KInf.
Proof.
  apply (lettered_file_has_no_number (py "img1.png") "i"%char); try done.
  apply (bool_decide_unpack _). by vm_compute.
Defined.

(** ** The names of the text area *)

Lemma lstrip_suffix s : ∃ pre, s = pre ++ lstrip s.
Proof.
  induction s as [|c s [pre IH]]; [by exists []|].
  cbn [lstrip]. destruct (isspace c); [|by exists []].
  exists (c :: pre). by rewrite <- app_comm_cons, <- IH.
Qed.

Lemma lstrip_head s c t : lstrip s = c :: t → isspace c = false.
Proof.
  induction s as [|x s IH]; [done|]. cbn [lstrip].
  destruct (isspace x) eqn:Hx; [done|]. by intros [= <- _].
Qed.

Lemma lstrip_id c s : isspace c = false → lstrip (c :: s) = c :: s.
Proof. intros Hc. cbn [lstrip]. by rewrite Hc. Qed.

Lemma lstrip_idemp s : lstrip (lstrip s) = lstrip s.
Proof.
  destruct (lstrip s) as [|c t] eqn:Hs; [done|].
  apply lstrip_id. by eapply lstrip_head.
Qed.

Lemma lstrip_snoc s c : isspace c = false → ∃ x, lstrip (s ++ [c]) = x ++ [c].
Proof.
  intros Hc. induction s as [|y s [x IH]].
  - exists []. by apply lstrip_id.
  - cbn [app lstrip]. destruct (isspace y); [by exists x|].
    by exists (y :: s).
Qed.

(** What [strip] leaves has no whitespace at either end. *)
Lemma strip_ends s :
  (∀ c, head (strip s) = Some c → isspace c = false)
  ∧ (∀ c, last (strip s) = Some c → isspace c = false).
Proof.
  unfold strip, rstrip. split; intros c Hc.
  - destruct (lstrip s) as [|x t] eqn:Hs; [done|].
    apply lstrip_head in Hs.
    rewrite reverse_cons in Hc.
    destruct (lstrip_snoc (reverse t) x Hs) as [y Hy].
    rewrite Hy, reverse_snoc in Hc. by injection Hc as <-.
  - rewrite last_reverse in Hc.
    destruct (lstrip (reverse (lstrip s))) as [|x t] eqn:Hs; [done|].
    injection Hc as ->. by eapply lstrip_head.
Qed.

Lemma strip_idemp s : strip (strip s) = strip s.
Proof.
  destruct (strip_ends s) as [Hhead Hlast].
  assert (lstrip (strip s) = strip s) as Hl.
  { destruct (strip s) as [|c t]; [done|]. by apply lstrip_id, Hhead. }
  unfold strip at 1. rewrite Hl. unfold strip, rstrip.
  by rewrite reverse_involutive, lstrip_idemp.
Qed.

Lemma strip_subseteq s c : c ∈ strip s → c ∈ s.
Proof.
  unfold strip, rstrip. intros Hc. rewrite elem_of_reverse in Hc.
  destruct (lstrip_suffix (reverse (lstrip s))) as [p1 H1].
  destruct (lstrip_suffix s) as [p2 H2].
  rewrite H2. apply elem_of_app. right.
  apply elem_of_reverse. rewrite H1. apply elem_of_app. by right.
Qed.

Lemma split_cons sep s : ∃ piece pieces, split sep s = piece :: pieces.
Proof.
  destruct s as [|c s]; [by eexists _, _|]. cbn [split].
  destruct (bool_decide (c = sep)); [by eexists _, _|].
  destruct (split sep s); by eexists _, _.
Qed.

(** No piece holds the separator, and every piece is made of characters
    of the text. *)
Lemma split_pieces sep s : ∀ piece,
  piece ∈ split sep s → (sep ∉ piece) ∧ ∀ c, c ∈ piece → c ∈ s.
Proof.
  induction s as [|c s IH]; intros piece Hin.
  - apply list_elem_of_singleton in Hin as ->.
    split; [apply not_elem_of_nil | done].
  - cbn [split] in Hin. case_bool_decide as Hc.
    + apply elem_of_cons in Hin as [->|Hin].
      * split; [apply not_elem_of_nil | by intros ? ?%elem_of_nil].
      * destruct (IH _ Hin) as [Hsep Hsub].
        split; [done|]. intros x Hx. by apply list_elem_of_further, Hsub.
    + destruct (split_cons sep s) as (p & ps & Hs). rewrite Hs in Hin, IH.
      apply elem_of_cons in Hin as [->|Hin].
      * destruct (IH p) as [Hsep Hsub]; [apply list_elem_of_here|].
        split.
        -- intros [?|?]%elem_of_cons; [congruence | done].
        -- intros x [->|Hx]%elem_of_cons;
             [apply list_elem_of_here | by apply list_elem_of_further, Hsub].
      * destruct (IH piece) as [Hsep Hsub]; [by apply list_elem_of_further|].
        split; [done|]. intros x Hx. by apply list_elem_of_further, Hsub.
Qed.

Lemma split_app sep a b : (sep ∉ a) → split sep (a ++ sep :: b) = a :: split sep b.
Proof.
  induction a as [|c a IH]; intros Ha; cbn [app split].
  - by rewrite bool_decide_eq_true_2.
  - apply not_elem_of_cons in Ha as [Hc Ha].
    rewrite bool_decide_eq_false_2 by congruence. by rewrite IH.
Qed.

Lemma split_one sep a : (sep ∉ a) → split sep a = [a].
Proof.
  induction a as [|c a IH]; intros Ha; [done|]. cbn [split].
  apply not_elem_of_cons in Ha as [Hc Ha].
  rewrite bool_decide_eq_false_2 by congruence. by rewrite IH.
Qed.

Lemma split_join sep pieces :
  pieces ≠ [] → Forall (λ piece, sep ∉ piece) pieces →
  split sep (join sep pieces) = pieces.
Proof.
  induction pieces as [|p [|q rest] IH]; intros Hne Hall; [done| |].
  - apply Forall_cons in Hall as [Hp _]. cbn [join]. by apply split_one.
  - apply Forall_cons in Hall as [Hp Hall].
    change (join sep (p :: q :: rest)) with (p ++ sep :: join sep (q :: rest)).
    rewrite split_app by done. by rewrite IH.
Qed.

Lemma pasted_names_trimmed_facts new_names_input name :
  name ∈ pasted_names new_names_input →
  name ≠ [] ∧ strip name = name ∧ (∀ c, c ∈ name → c ∈ new_names_input).
Proof.
  unfold pasted_names. case_bool_decide; [by intros ?%elem_of_nil|].
  intros (line & -> & Hline)%list_elem_of_fmap.
  apply list_elem_of_filter in Hline as [Hne Hline].
  destruct (split_pieces _ _ _ Hline) as [_ Hsub].
  split; [done|]. split; [apply strip_idemp|].
  by intros c ?%strip_subseteq%Hsub.
Qed.

(** X8.  The names of the text area.  Each is a line of the text without
    its surrounding whitespace: it is not empty, trimming it again changes
    nothing, it begins and ends with a character that is no whitespace,
    and it holds no line break. *)
Theorem pasted_names_are_trimmed (new_names_input name : str) :
  name ∈ pasted_names new_names_input →
  name ≠ [] ∧ strip name = name
  ∧ (∀ c, head name = Some c → isspace c = false)
  ∧ (∀ c, last name = Some c → isspace c = false)
  ∧ (newline ∉ name)
  ∧ (∀ c, c ∈ name → c ∈ new_names_input).
Proof.
  unfold pasted_names. case_bool_decide; [by intros ?%elem_of_nil|].
  intros (line & -> & Hline)%list_elem_of_fmap.
  apply list_elem_of_filter in Hline as [Hne Hline].
  destruct (split_pieces _ _ _ Hline) as [Hsep Hsub].
  destruct (strip_ends line) as [Hhead Hlast].
  split; [done|]. split; [apply strip_idemp|].
  split; [done|]. split; [done|].
  split; [by intros ?%strip_subseteq | by intros c ?%strip_subseteq%Hsub].
Qed.

(** Three lines, the middle one blank. *)
Lemma pasted_names_are_trimmed_witness :
  pasted_names (py " photo " ++ [newline; " "%char; newline] ++ py "final")
  = [py "photo"; py "final"]
  ∧ strip (py "photo") = py "photo".
Proof.
  split; [by vm_compute|].
  apply (pasted_names_are_trimmed
           (py " photo " ++ [newline; " "%char; newline] ++ py "final") (py "photo")).
  apply (bool_decide_unpack _). by vm_compute.
Defined.

(** X9.  Round trip of the text area.  Names that are not empty, have no
    whitespace around them and hold no line break, written one per line,
    are read back as they are, in their order. *)
Theorem pasted_names_of_lines (names : list str) :
  Forall (λ name, name ≠ [] ∧ strip name = name ∧ (newline ∉ name)) names →
  pasted_names (join newline names) = names.
Proof.
  intros Hnames. unfold pasted_names.
  destruct names as [|n rest]; [done|].
  rewrite bool_decide_eq_false_2.
  2:{ apply Forall_cons in Hnames as [(Hn & _) _].
      destruct n; [done|]. by destruct rest. }
  rewrite split_join; [|done|by eapply Forall_impl; [exact Hnames|]; intros ? (_ & _ & ?)].
  induction Hnames as [|m ms (Hne & Hstrip & _) _ IH]; [done|].
  rewrite filter_cons_True by by rewrite Hstrip.
  by rewrite fmap_cons, Hstrip, IH.
Qed.

(** Two names on two lines. *)
Lemma pasted_names_of_lines_witness :
  pasted_names (join newline [py "photo"; py "final report"])
  = [py "photo"; py "final report"].
Proof.
  apply (pasted_names_of_lines [py "photo"; py "final report"]).
  repeat (apply List.Forall_cons;
          [split; [done|]; split; [by vm_compute|];
           apply (bool_decide_unpack _); by vm_compute|]).
  apply List.Forall_nil.
Defined.

(** X10.  A pasted name never gives an empty identifier.  When the text of
    the text area holds no null byte, the new identifier of any file under
    any of its names keeps something once [writestr] has cut it, so the
    [IndexError] of an empty name cannot come from pasted names. *)
Theorem pasted_name_gives_identifier (new_names_input name f : str) :
  zero ∉ new_names_input →
  name ∈ pasted_names new_names_input →
  until_nul (new_name name f) ≠ []
  ∧ writestr_exn (new_name name f)
    = Exn "struct.error" (py "ushort format requires 0 <= number <= 65535").
Proof.
  intros Hnul Hname.
  destruct (pasted_names_trimmed_facts new_names_input name Hname)
    as (Hne & Hstrip & Hsub).
  assert (until_nul (new_name name f) ≠ []) as Hcut.
  { unfold new_name. rewrite Hstrip.
    destruct name as [|c name]; [done|]. cbn [app until_nul].
    rewrite bool_decide_eq_false_2; [done|].
    intros ->. apply Hnul, Hsub, list_elem_of_here. }
  split; [done|]. unfold writestr_exn.
  destruct (last (until_nul (new_name name f))) eqn:Hlast; [done|].
  by apply last_None in Hlast.
Qed.

(** A name of the text area on a file without extension. *)
Lemma pasted_name_gives_identifier_witness :
  until_nul (new_name (py "final") (py "report")) ≠ []
  ∧ writestr_exn (new_name (py "final") (py "report"))
    = Exn "struct.error" (py "ushort format requires 0 <= number <= 65535").
Proof.
  apply (pasted_name_gives_identifier
           ([" "%char; newline] ++ py "final ") (py "final") (py "report")).
  - apply (bool_decide_unpack _). by vm_compute.
  - apply (bool_decide_unpack _). by vm_compute.
Defined.

Example split_samples :
  split newline <$> [[]; py "a"; [newline]; py "a" ++ [newline];
                     py "a" ++ [newline; newline] ++ py "b"]
  = [[[]]; [py "a"]; [[]; []]; [py "a"; []]; [py "a"; []; py "b"]].
Proof. by vm_compute. Qed.

(** ** The button *)

Lemma download_button_elem_of clock uploaded_zip names out file_name :
  DownloadButton out file_name ∈ start_renaming clock uploaded_zip names →
  ∃ upload,
    uploaded_zip = Some upload ∧ names ≠ []
    ∧ (process_and_rename_zip clock upload names).1 = Some out
    ∧ file_name = py "renamed_files.zip".
Proof.
  unfold start_renaming. destruct uploaded_zip as [upload|].
  2:{ by intros [=]%list_elem_of_singleton. }
  case_bool_decide as Hnames.
  2:{ by intros [=]%list_elem_of_singleton. }
  destruct (process_and_rename_zip clock upload names) as [renamed_zip w] eqn:Hrun.
  intros [Hin|Hin]%elem_of_cons; [done|].
  apply elem_of_app in Hin as [Hin|Hin].
  { by apply list_elem_of_fmap in Hin as (c & ? & _). }
  destruct renamed_zip as [output_buffer|]; [|by apply elem_of_nil in Hin].
  apply elem_of_cons in Hin as [?|Hin]; [done|].
  apply elem_of_cons in Hin as [[= -> ->]|Hin].
  - exists upload. by rewrite Hrun.
  - by apply list_elem_of_singleton in Hin.
Qed.

(** X11.  A download is offered only after a run that returned an
    archive.  If the page shows the download button, then a file was
    uploaded that opens as an archive, the renamer returned the archive
    the button holds, and it is offered as renamed_files.zip; it has as
    many members as there are names and as the upload has file entries,
    and at least one. *)
Theorem download_only_after_success (clock : nat → date_time)
    (uploaded_zip : option upload) (names : list str)
    (out : list written) (file_name : str) :
  DownloadButton out file_name ∈ start_renaming clock uploaded_zip names →
  ∃ input_zip,
    uploaded_zip = Some (Ok input_zip)
    ∧ (process_and_rename_zip clock (Ok input_zip) names).1 = Some out
    ∧ file_name = py "renamed_files.zip"
    ∧ length out = length names
    ∧ length out = length (file_entries input_zip)
    ∧ out ≠ [].
Proof.
  intros Hin.
  apply download_button_elem_of in Hin as (upload & -> & Hnames & Hret & ->).
  destruct (process_returns _ _ _ _ Hret) as (input_zip & -> & Hclean).
  destruct (process_clean clock _ _ Hclean) as (out' & w & Hrun & _ & _ & Hlen & _).
  rewrite Hrun in Hret. simpl in Hret. injection Hret as ->.
  destruct Hclean as [Hcount _].
  exists input_zip. rewrite Hrun.
  split; [done|]. split; [done|]. split; [done|].
  split; [congruence|]. split; [by rewrite Hlen, length_original_files|].
  intros ->. destruct names; [done|]. simpl in *. lia.
Qed.

(** The button after the run on 2.txt and 1.txt. *)
Lemma download_only_after_success_witness :
  ∃ input_zip,
    Some (Ok [Member (py "2.txt") (Ok [x42]); Member (py "1.txt") (Ok [x41])])
    = Some (Ok input_zip)
    ∧ (process_and_rename_zip noon (Ok input_zip) [py "one"; py "two"]).1
      = Some [Written (py "one.txt") (noon 0) [x41];
              Written (py "two.txt") (noon 1) [x42]]
    ∧ py "renamed_files.zip" = py "renamed_files.zip"
    ∧ length [Written (py "one.txt") (noon 0) [x41];
              Written (py "two.txt") (noon 1) [x42]]
      = length [py "one"; py "two"]
    ∧ length [Written (py "one.txt") (noon 0) [x41];
              Written (py "two.txt") (noon 1) [x42]]
      = length (file_entries input_zip)
    ∧ [Written (py "one.txt") (noon 0) [x41];
       Written (py "two.txt") (noon 1) [x42]] ≠ [].
Proof.
  apply (download_only_after_success noon).
  vm_compute.
  repeat first [apply list_elem_of_here | apply list_elem_of_further].
Defined.

(** X12.  The page after a run without a fault.  With an archive
    uploaded and a list of names that is not empty, a run without a fault
    shows, in this order: the heading of the run, one success message per
    file in the order of the sort, the heading of the download, the
    button that holds the returned archive under the name
    renamed_files.zip, and the closing success message. *)
Theorem clean_run_page (clock : nat → date_time)
    (input_zip : list member) (names : list str) :
  names ≠ [] →
  length names = length (file_entries input_zip) →
  Forall (λ m, readable m = true) (file_entries input_zip) →
  Forall2 (λ n f, accepted (new_name n f) = true) names (original_files input_zip) →
  ∃ out,
    (process_and_rename_zip clock (Ok input_zip) names).1 = Some out
    ∧ start_renaming clock (Some (Ok input_zip)) names
      = Subheader (py "Renaming in progress...")
        :: (St <$> zip_with renamed_call names (original_files input_zip))
        ++ [Subheader (py "4. Download your renamed files");
            DownloadButton out (py "renamed_files.zip");
            St (StSuccess (py "Your files have been successfully renamed and are ready for download!"))].
Proof.
  intros Hnames Hlen Hread Hacc.
  destruct (process_clean_world clock input_zip names Hlen Hread Hacc)
    as (out & Hrun & _).
  exists out. unfold start_renaming.
  rewrite bool_decide_eq_true_2 by done. by rewrite Hrun.
Qed.

(** The page after the run on 2.txt and 1.txt. *)
Lemma clean_run_page_witness :
  ∃ out,
    (process_and_rename_zip noon
       (Ok [Member (py "2.txt") (Ok [x42]); Member (py "1.txt") (Ok [x41])])
       [py "one"; py "two"]).1 = Some out
    ∧ start_renaming noon
        (Some (Ok [Member (py "2.txt") (Ok [x42]); Member (py "1.txt") (Ok [x41])]))
        [py "one"; py "two"]
      = [Subheader (py "Renaming in progress...");
         St (StSuccess (py "Renamed '1.txt' to 'one.txt'"));
         St (StSuccess (py "Renamed '2.txt' to 'two.txt'"));
         Subheader (py "4. Download your renamed files");
         DownloadButton out (py "renamed_files.zip");
         St (StSuccess (py "Your files have been successfully renamed and are ready for download!"))].
Proof.
  apply (clean_run_page noon
           [Member (py "2.txt") (Ok [x42]); Member (py "1.txt") (Ok [x41])]
           [py "one"; py "two"]).
  - done.
  - by vm_compute.
  - by_running.
  - by_running.
Defined.
